(** * BuSCar: the profile loader of notebooks/0.download-data/2.preprocessing.ipynb

    A shallow embedding of [load_and_concat_profiles] and of the library
    calls it is built from (pathlib paths, the three file-system reads, and
    the polars frame operations [select] and [concat]), followed by the
    properties of the loader.

    Python effects are threaded through a state-and-exception monad over a
    [World]: the directory tree the process sees and the trace of the
    file-system calls made so far.  An exception keeps the trace, so that
    "nothing was read before the failure" is a statement about a value. *)

From Stdlib Require Import List String Ascii ZArith Bool Arith Lia DecimalString.
Import ListNotations.
Local Open Scope string_scope.
Local Open Scope list_scope.

(* ===================================================================== *)
(** * Text helpers *)
(* ===================================================================== *)

Module Text.

Definition dquote : string := String (ascii_of_nat 34) EmptyString.

Definition quoted (s : string) : string := dquote ++ s ++ dquote.

Definition of_nat (n : nat) : string := NilEmpty.string_of_uint (Nat.to_uint n).

Fixpoint join (sep : string) (l : list string) : string :=
  match l with
  | [] => ""
  | [x] => x
  | x :: rest => x ++ sep ++ join sep rest
  end.

(** [str.endswith] *)
Definition ends_with (suffix s : string) : bool :=
  (String.length suffix <=? String.length s)%nat
  && String.eqb (substring (String.length s - String.length suffix)
                           (String.length suffix) s) suffix.

(** [needle in hay] *)
Fixpoint contains (needle hay : string) : bool :=
  String.prefix needle hay
  || match hay with
     | EmptyString => false
     | String _ hay' => contains needle hay'
     end.

(** [s.split(sep)] for a one-character separator; [cur] is the piece
    being read. *)
Fixpoint split_on (sep : ascii) (cur s : string) : list string :=
  match s with
  | EmptyString => [cur]
  | String c s' =>
      if Ascii.eqb c sep then cur :: split_on sep "" s'
      else split_on sep (cur ++ String c EmptyString) s'
  end.

Definition mem (x : string) (l : list string) : bool :=
  existsb (String.eqb x) l.

End Text.

(* ===================================================================== *)
(** * pathlib *)
(* ===================================================================== *)

(** Where a POSIX path starts: at the current directory, at the root, or
    at the two leading slashes that POSIX sets apart and pathlib keeps. *)
Inductive Anchor := Relative | Root | TwoSlashes.

(** A [pathlib.Path] (POSIX flavour): its anchor and its components.
    Parent references (two dots) are kept among the components, as pathlib
    keeps them. *)
Record Path := mkPath { anchor : Anchor; parts : list string }.

Module Pathlib.

(** Exactly two leading slashes are kept; one, or three and more, are the
    root. *)
Definition anchor_of (s : string) : Anchor :=
  if String.prefix "//" s && negb (String.prefix "///" s) then TwoSlashes
  else if String.prefix "/" s then Root
  else Relative.

(** [pathlib.Path(s)]: empty and single-dot components are dropped. *)
Definition of_str (s : string) : Path :=
  {| anchor := anchor_of s;
     parts := filter (fun c => negb (String.eqb c "" || String.eqb c "."))
                     (Text.split_on "/" "" s) |}.

(** [str(path)] *)
Definition str (p : Path) : string :=
  match anchor p with
  | Root => "/" ++ Text.join "/" (parts p)
  | TwoSlashes => "//" ++ Text.join "/" (parts p)
  | Relative =>
      match parts p with
      | [] => "."
      | _ => Text.join "/" (parts p)
      end
  end.

(** [path / name] *)
Definition child (p : Path) (name : string) : Path :=
  {| anchor := anchor p; parts := parts p ++ [name] |}.

End Pathlib.

(* ===================================================================== *)
(** * polars frames *)
(* ===================================================================== *)

Inductive DataType := Int64 | Float64 | Utf8 | Boolean.

(** A cell; a [Float64] cell is kept as its 64-bit pattern. *)
Inductive Value :=
| Null
| IntV (z : Z)
| FloatV (bits : Z)
| StrV (s : string)
| BoolV (b : bool).

Record Series := mkSeries {
  name : string;
  dtype : DataType;
  values : list Value
}.

(** A [pl.DataFrame] is columnar: its columns in order. *)
Definition DataFrame := list Series.

Definition columns (df : DataFrame) : list string := map name df.

Definition schema (df : DataFrame) : list (string * DataType) :=
  map (fun s => (name s, dtype s)) df.

Definition width (df : DataFrame) : nat := List.length df.

(** [df.height]: the length of the columns (0 for a frame without
    columns). *)
Definition height (df : DataFrame) : nat :=
  match df with
  | [] => 0
  | s :: _ => List.length (values s)
  end.

Definition dtype_eqb (a b : DataType) : bool :=
  match a, b with
  | Int64, Int64 | Float64, Float64 | Utf8, Utf8 | Boolean, Boolean => true
  | _, _ => false
  end.

Definition dtype_name (t : DataType) : string :=
  match t with
  | Int64 => "Int64"
  | Float64 => "Float64"
  | Utf8 => "String"
  | Boolean => "Boolean"
  end.

(* ===================================================================== *)
(** * Exceptions *)
(* ===================================================================== *)

Inductive ExcType :=
| TypeError
| FileNotFoundError
| IsADirectoryError
| ValueError
| ComputeError
| ColumnNotFoundError
| DuplicateError
| ShapeError
| SchemaError.

Record Exc := mkExc { exc_type : ExcType; exc_msg : string }.

(** The outcome of a call: it raised, or it returned. *)
Inductive Result (A : Type) :=
| Raised (e : Exc)
| Returned (a : A).
Arguments Raised {A} e.
Arguments Returned {A} a.

Definition is_returned {A} (r : Result A) : bool :=
  match r with Returned _ => true | Raised _ => false end.


(** An exception names [s] when its message contains it. *)
Definition names_text (e : Exc) (s : string) : bool :=
  Text.contains s (exc_msg e).

(* ===================================================================== *)
(** * The world: directory tree and trace *)
(* ===================================================================== *)

(** A directory entry.  A regular file holds what reading it as parquet
    gives: its table, or the exception polars raises for its bytes.  A
    directory holds its entries, in the order the operating system lists
    them, and what reading the directory itself as a parquet data set
    gives.  Symbolic links are not part of this model: every entry is a
    regular file or a directory. *)
#[local] Unset Elimination Schemes.
Inductive Node :=
| File (content : Result DataFrame)
| Dir (entries : list (string * Node)) (dataset : Result DataFrame).
#[local] Set Elimination Schemes.

Inductive Event :=
| EvExists (p : Path)
| EvGlob (dir : Path) (pattern : string)
| EvRead (p : Path).

Record World := mkWorld {
  root : Node;
  cwd : list string;
  trace : list Event
}.

Fixpoint assoc {A} (k : string) (l : list (string * A)) : option A :=
  match l with
  | [] => None
  | (k', v) :: rest => if String.eqb k k' then Some v else assoc k rest
  end.

(** Walk down the tree from [n] along the components; [above] holds the
    directories passed through on the way to [n], nearest first.  Two dots
    lead back to the parent (the root is its own parent), one dot stays;
    both need [n] to be a directory.  The result is the node reached, with
    the directories above it. *)
Fixpoint walk_from (above : list Node) (n : Node) (components : list string)
  : option (list Node * Node) :=
  match components with
  | [] => Some (above, n)
  | c :: rest =>
      match n with
      | Dir entries _ =>
          if String.eqb c ".." then
            match above with
            | [] => walk_from [] n rest
            | parent :: higher => walk_from higher parent rest
            end
          else if String.eqb c "." then walk_from above n rest
          else
            match assoc c entries with
            | Some n' => walk_from (n :: above) n' rest
            | None => None
            end
      | File _ => None
      end
  end.

Definition walk (n : Node) (components : list string) : option Node :=
  option_map snd (walk_from [] n components).

(** The node a path leads to, if any.  Two leading slashes lead where one
    does. *)
Definition resolve (w : World) (p : Path) : option Node :=
  walk (root w)
       (match anchor p with
        | Relative => cwd w ++ parts p
        | Root | TwoSlashes => parts p
        end).

(** The world after further file-system calls: the tree is untouched. *)
Definition extend (w : World) (evs : list Event) : World :=
  {| root := root w; cwd := cwd w; trace := trace w ++ evs |}.

Definition record (ev : Event) (w : World) : World := extend w [ev].

(** The paths whose reading was attempted. *)
Definition reads (t : list Event) : list Path :=
  flat_map (fun ev => match ev with EvRead p => [p] | _ => [] end) t.

(* ===================================================================== *)
(** * The monad of the notebook's code *)
(* ===================================================================== *)

Definition M (A : Type) : Type := World -> World * Result A.

Definition ret {A} (a : A) : M A := fun w => (w, Returned a).

Definition raise {A} (e : Exc) : M A := fun w => (w, Raised e).

Definition bind {A B} (m : M A) (k : A -> M B) : M B :=
  fun w =>
    match m w with
    | (w', Returned a) => k a w'
    | (w', Raised e) => (w', Raised e)
    end.

Declare Scope py_scope.
Delimit Scope py_scope with py.
Notation "x <- m ;; k" := (bind m (fun x => k))
  (at level 61, m at next level, right associativity) : py_scope.
Notation "m ;;; k" := (bind m (fun _ => k))
  (at level 61, right associativity) : py_scope.
Local Open Scope py_scope.

(** A list comprehension [[f(x) for x in l]] with an effectful [f]. *)
Fixpoint for_each {A B} (f : A -> M B) (l : list A) : M (list B) :=
  match l with
  | [] => ret []
  | x :: rest =>
      y <- f x ;;
      ys <- for_each f rest ;;
      ret (y :: ys)
  end.

(** Pure exception-only steps. *)
Definition rbind {A B} (r : Result A) (k : A -> Result B) : Result B :=
  match r with
  | Raised e => Raised e
  | Returned a => k a
  end.

Definition lift {A} (r : Result A) : M A := fun w => (w, r).

(* ===================================================================== *)
(** * File-system calls *)
(* ===================================================================== *)

(** [path.exists()] *)
Definition path_exists (p : Path) : M bool :=
  fun w =>
    (record (EvExists p) w,
     Returned (match resolve w p with Some _ => true | None => false end)).

(** First occurrences only: a directory lists a name once. *)
Fixpoint entry_names {A} (seen : list string) (l : list (string * A)) : list string :=
  match l with
  | [] => []
  | (k, _) :: rest =>
      if Text.mem k seen then entry_names seen rest
      else k :: entry_names (k :: seen) rest
  end.

(** What [dir.glob("*" + suffix)] yields: the entries directly under [dir]
    whose name ends with [suffix], in listing order, not descending into
    sub-directories.  A [dir] that is missing, or is a regular file, yields
    nothing. *)
Definition matching_files (w : World) (dir : Path) (suffix : string) : list Path :=
  match resolve w dir with
  | Some (Dir entries _) =>
      map (Pathlib.child dir)
          (filter (Text.ends_with suffix) (entry_names [] entries))
  | _ => []
  end.

(** [list(dir.glob("*" + suffix))] *)
Definition glob_star (dir : Path) (suffix : string) : M (list Path) :=
  fun w =>
    (record (EvGlob dir ("*" ++ suffix)) w, Returned (matching_files w dir suffix)).

(** What reading [file] gives: for a regular file, what its bytes give as
    parquet; for a directory, what polars makes of it as a data set; for a
    path that leads nowhere, the [FileNotFoundError] of the operating
    system. *)
Definition parquet_at (w : World) (file : Path) : Result DataFrame :=
  match resolve w file with
  | Some (File content) => content
  | Some (Dir _ dataset) => dataset
  | None =>
      Raised (mkExc FileNotFoundError
                ("No such file or directory (os error 2): " ++ Pathlib.str file))
  end.

(** [pl.read_parquet(file)] *)
Definition read_parquet (file : Path) : M DataFrame :=
  fun w => (record (EvRead file) w, parquet_at w file).

(* ===================================================================== *)
(** * Frame operations *)
(* ===================================================================== *)

Fixpoint get_column (df : DataFrame) (c : string) : option Series :=
  match df with
  | [] => None
  | s :: rest => if String.eqb c (name s) then Some s else get_column rest c
  end.

(** The cells of column [c], top to bottom (none when the frame has no
    such column). *)
Definition column_values (c : string) (df : DataFrame) : list Value :=
  match get_column df c with
  | Some s => values s
  | None => []
  end.

(** What is taken from polars as given, rather than modelled: how it reads
    a column name written as a regular expression, and the wording of two
    of its messages. *)
Record Polars := mkPolars {
  (* for a name of the form ^...$: the test the expression makes of a
     column name, or the exception polars raises for a pattern it rejects *)
  regex : string -> Result (string -> bool);
  (* what follows the list of valid columns in the message of
     ColumnNotFoundError, for the missing name and the columns of the frame *)
  not_found_details : string -> list string -> string;
  (* the message of DuplicateError for a name *)
  duplicate_message : string -> string
}.

Definition column_not_found (p : Polars) (c : string) (df : DataFrame) : Exc :=
  mkExc ColumnNotFoundError
    ("unable to find column " ++ Text.quoted c ++ "; valid columns: ["
       ++ Text.join ", " (map Text.quoted (columns df)) ++ "]"
       ++ not_found_details p c (columns df)).

Definition duplicate_name (p : Polars) (c : string) : Exc :=
  mkExc DuplicateError (duplicate_message p c).

(** A name that starts with a caret and ends with a dollar is read as a
    regular expression. *)
Definition is_regex_projection (n : string) : bool :=
  String.prefix "^" n && Text.ends_with "$" n.

(** Any other name, the star apart, names a column. *)
Definition plain_name (n : string) : bool :=
  negb (String.eqb n "*") && negb (is_regex_projection n).

(** The column names a string stands for in [df.select]: each string is
    read as [pl.col(n)], where the star stands for every column of the
    frame, a regular expression for the columns it matches (in the order of
    the frame, possibly none), and any other string for itself. *)
Definition stands_for (p : Polars) (df : DataFrame) (n : string)
  : Result (list string) :=
  if String.eqb n "*" then Returned (columns df)
  else if is_regex_projection n then
    rbind (regex p n) (fun test => Returned (filter test (columns df)))
  else Returned [n].

(** The names selected, once every string has been expanded. *)
Fixpoint expand (p : Polars) (df : DataFrame) (names : list string)
  : Result (list string) :=
  match names with
  | [] => Returned []
  | n :: rest =>
      rbind (stands_for p df n) (fun cs =>
      rbind (expand p df rest) (fun more => Returned (cs ++ more)))
  end.

(** The projection loop of [df.select] over the expanded names: they are
    resolved left to right; a name the frame does not have raises
    [ColumnNotFoundError], a name already selected raises [DuplicateError].
    [seen] holds the names selected so far. *)
Fixpoint select_from (p : Polars) (df : DataFrame) (seen names : list string)
  : Result DataFrame :=
  match names with
  | [] => Returned []
  | c :: rest =>
      match get_column df c with
      | None => Raised (column_not_found p c df)
      | Some s =>
          if Text.mem c seen then Raised (duplicate_name p c)
          else rbind (select_from p df (c :: seen) rest)
                     (fun out => Returned (s :: out))
      end
  end.

(** [df.select(names)] with a list of strings. *)
Definition select (p : Polars) (df : DataFrame) (names : list string)
  : Result DataFrame :=
  rbind (expand p df names) (select_from p df []).

Definition width_mismatch (a b : DataFrame) : Exc :=
  mkExc ShapeError
    ("unable to append to a DataFrame of width " ++ Text.of_nat (width a)
       ++ " with a DataFrame of width " ++ Text.of_nat (width b)).

Definition names_mismatch (l r : Series) : Exc :=
  mkExc ShapeError
    ("unable to vstack, column names don't match: " ++ Text.quoted (name l)
       ++ " and " ++ Text.quoted (name r)).

Definition dtype_mismatch (l r : Series) : Exc :=
  mkExc SchemaError
    ("type " ++ dtype_name (dtype r) ++ " is incompatible with expected type "
       ++ dtype_name (dtype l)).

(** Column-wise append of two frames of one width: names and types must
    agree position by position. *)
Fixpoint append_columns (acc other : DataFrame) : Result DataFrame :=
  match acc, other with
  | l :: acc', r :: other' =>
      if negb (String.eqb (name l) (name r)) then Raised (names_mismatch l r)
      else if negb (dtype_eqb (dtype l) (dtype r)) then Raised (dtype_mismatch l r)
      else rbind (append_columns acc' other')
                 (fun out => Returned (mkSeries (name l) (dtype l)
                                         (values l ++ values r) :: out))
  | _, _ => Returned []
  end.

(** [DataFrame.vstack]: frames of different widths cannot be stacked,
    except that a frame without any column takes over the columns of the
    other one (polars, [DataFrame::vstack_mut]). *)
Definition vstack (acc other : DataFrame) : Result DataFrame :=
  if negb (width acc =? width other)%nat then
    match acc with
    | [] => Returned other
    | _ => Raised (width_mismatch acc other)
    end
  else append_columns acc other.

Fixpoint vstack_all (acc : DataFrame) (items : list DataFrame) : Result DataFrame :=
  match items with
  | [] => Returned acc
  | df :: rest => rbind (vstack acc df) (fun acc' => vstack_all acc' rest)
  end.

(** [pl.concat(items, rechunk=True)], vertical by default: the items are
    stacked onto the first one.  Rechunking changes the memory layout
    only. *)
Definition concat (items : list DataFrame) : Result DataFrame :=
  match items with
  | [] => Raised (mkExc ValueError "cannot concat empty list")
  | first :: rest => vstack_all first rest
  end.

(* ===================================================================== *)
(** * Arguments as Python passes them *)
(* ===================================================================== *)

(** The values the two checked arguments can take at run time. *)
#[local] Unset Elimination Schemes.
Inductive PyVal :=
| PyNone
| PyStr (s : string)
| PyInt (z : Z)
| PyPath (p : Path)
| PyList (items : list PyVal).
#[local] Set Elimination Schemes.

Definition is_path (v : PyVal) : bool :=
  match v with PyPath _ => true | _ => false end.

Definition as_paths (items : list PyVal) : list Path :=
  flat_map (fun v => match v with PyPath p => [p] | _ => [] end) items.

(* ===================================================================== *)
(** * The loader: argument checks and file discovery *)
(* ===================================================================== *)

(** The two [isinstance] branches on [profile_dir]. *)
Definition coerce_dir (profile_dir : PyVal) : Result Path :=
  match profile_dir with
  | PyStr s => Returned (Pathlib.of_str s)
  | PyPath p => Returned p
  | _ => Raised (mkExc TypeError
                   "profile_dir must be a string or a pathlib.Path object")
  end.

(** The validation of [specific_plates]. *)
Definition check_specific_plates (specific_plates : PyVal)
  : Result (option (list Path)) :=
  match specific_plates with
  | PyNone => Returned None
  | PyList items =>
      if negb (forallb is_path items) then
        Raised (mkExc TypeError
                  "All elements in specific_plates must be pathlib.Path objects")
      else Returned (Some (as_paths items))
  | _ => Raised (mkExc TypeError
                   "specific_plates must be a list of pathlib.Path objects")
  end.

Definition profile_not_found (plate_path : Path) : Exc :=
  mkExc FileNotFoundError ("Profile file not found: " ++ Pathlib.str plate_path).

Definition no_profiles_found (profile_dir : Path) : Exc :=
  mkExc FileNotFoundError ("No profile files found in " ++ Pathlib.str profile_dir).

(** The loop that checks that every given plate file exists. *)
Fixpoint check_plates_exist (plates : list Path) : M unit :=
  match plates with
  | [] => ret tt
  | plate_path :: rest =>
      found <- path_exists plate_path ;;
      if negb found then raise (profile_not_found plate_path)
      else check_plates_exist rest
  end.

(** The block that chooses [files_to_load]; [plates] is [None] or the
    validated list. *)
Definition files_to_load (profile_dir : Path) (plates : option (list Path))
  : M (list Path) :=
  match plates with
  | Some specific_plates =>
      check_plates_exist specific_plates ;;;
      ret specific_plates
  | None =>
      found <- glob_star profile_dir ".parquet" ;;
      match found with
      | [] => raise (no_profiles_found profile_dir)
      | _ => ret found
      end
  end.

(** Everything before the first file is loaded: the checks on the two
    arguments and the choice of the files. *)
Definition choose_files (profile_dir specific_plates : PyVal) : M (list Path) :=
  profile_dir <- lift (coerce_dir profile_dir) ;;
  plates <- lift (check_specific_plates specific_plates) ;;
  files_to_load profile_dir plates.

(** The files a call sets out to load in world [w], or the exception that
    stops it before loading. *)
Definition chosen_files (w : World) (profile_dir specific_plates : PyVal)
  : Result (list Path) :=
  snd (choose_files profile_dir specific_plates w).


(* ===================================================================== *)
(** * The loader: loading and concatenation *)
(* ===================================================================== *)

Section Loader.

Variable polars : Polars.

(** The naming convention that tells a metadata column from a feature
    column. *)
Variable is_metadata_column : string -> bool.

(** Modelled from the spec: [utils.utils.split_meta_and_features] is
    imported by the notebook and is not among the sources.  The spec has
    the columns of a table split into two disjoint, exhaustive classes
    (metadata columns, feature columns) by a predicate on the column name
    alone, applied uniformly to every table; each class keeps the order of
    the table. *)
Definition split_meta_and_features (df : DataFrame) : list string * list string :=
  (filter is_metadata_column (columns df),
   filter (fun c => negb (is_metadata_column c)) (columns df)).

(** The inner function [load_profile], closed over [shared_features]. *)
Definition load_profile (shared_features : option (list string)) (file : Path)
  : M DataFrame :=
  profile_df <- read_parquet file ;;
  let '(meta_cols, _) := split_meta_and_features profile_df in
  match shared_features with
  | Some features =>
      (* Only select metadata and shared features *)
      lift (select polars profile_df (meta_cols ++ features))
  | None => ret profile_df
  end.

Definition load_and_concat_profiles
    (profile_dir : PyVal)
    (shared_features : option (list string))
    (specific_plates : PyVal) : M DataFrame :=
  (* Ensure profile_dir is a pathlib.Path *)
  profile_dir <- lift (coerce_dir profile_dir) ;;
  (* Validate specific_plates *)
  plates <- lift (check_specific_plates specific_plates) ;;
  (* Use specific_plates if provided, otherwise gather all .parquet files *)
  files <- files_to_load profile_dir plates ;;
  (* Load and concatenate profiles *)
  loaded_profiles <- for_each (load_profile shared_features) files ;;
  lift (concat loaded_profiles).

(** What [load_profile] does to the table it has read. *)
Definition project (shared_features : option (list string)) (profile_df : DataFrame)
  : Result DataFrame :=
  match shared_features with
  | Some features =>
      select polars profile_df
        (fst (split_meta_and_features profile_df) ++ features)
  | None => Returned profile_df
  end.

(** The table [file] contributes to the concatenation in world [w]. *)
Definition loaded_table (w : World) (shared_features : option (list string))
    (file : Path) : Result DataFrame :=
  rbind (parquet_at w file) (project shared_features).

End Loader.

(* ===================================================================== *)
(** * A regular-expression engine for the examples *)
(* ===================================================================== *)

(** The fragment of the regular expressions of polars (the Rust [regex]
    syntax) that the examples need: literal characters, the dot and the
    star after a character or a dot, between the caret and the dollar.
    Column names are taken to be ASCII.  A pattern with any other special
    character is outside the fragment and is not used in what follows; the
    engine below answers it with an exception. *)
Module Pattern.

Inductive Re :=
| Fail
| Eps
| Chr (c : ascii)
| Dot
| Cat (a b : Re)
| Alt (a b : Re)
| Star (a : Re).

Fixpoint nullable (r : Re) : bool :=
  match r with
  | Fail | Chr _ | Dot => false
  | Eps | Star _ => true
  | Cat a b => nullable a && nullable b
  | Alt a b => nullable a || nullable b
  end.

Definition newline : ascii := ascii_of_nat 10.

(** What is left of [r] to match after the character [c]. *)
Fixpoint deriv (c : ascii) (r : Re) : Re :=
  match r with
  | Fail | Eps => Fail
  | Chr c' => if Ascii.eqb c c' then Eps else Fail
  | Dot => if Ascii.eqb c newline then Fail else Eps
  | Cat a b =>
      if nullable a then Alt (Cat (deriv c a) b) (deriv c b)
      else Cat (deriv c a) b
  | Alt a b => Alt (deriv c a) (deriv c b)
  | Star a => Cat (deriv c a) (Star a)
  end.

(** [r] matches the whole of [s]. *)
Fixpoint matches (r : Re) (s : string) : bool :=
  match s with
  | EmptyString => nullable r
  | String c s' => matches (deriv c r) s'
  end.

Definition special (c : ascii) : bool :=
  existsb (Ascii.eqb c) (list_ascii_of_string "\.+*?()|[]{}^$").

Definition atom (c : ascii) : option Re :=
  if Ascii.eqb c "." then Some Dot
  else if special c then None
  else Some (Chr c).

(** The expression between the caret and the dollar. *)
Fixpoint parse (s : string) : option Re :=
  match s with
  | EmptyString => Some Eps
  | String c rest =>
      match atom c with
      | None => None
      | Some a =>
          match rest with
          | String star rest' =>
              if Ascii.eqb star "*" then option_map (Cat (Star a)) (parse rest')
              else option_map (Cat a) (parse rest)
          | EmptyString => Some a
          end
      end
  end.

(** The test a name of the form ^...$ makes of a column name. *)
Definition engine (n : string) : Result (string -> bool) :=
  match parse (substring 1 (String.length n - 2) n) with
  | Some r => Returned (matches r)
  | None => Raised (mkExc ComputeError ("regex parse error: " ++ n))
  end.

End Pattern.

(* ===================================================================== *)
(** * A naming convention and a small disk *)
(* ===================================================================== *)

Module Example.

(** polars, for the examples: the engine above; a [ColumnNotFoundError]
    that says no more than the valid columns; the wording of
    [DuplicateError]. *)
Definition polars : Polars :=
  {| regex := Pattern.engine;
     not_found_details := fun _ _ => "";
     duplicate_message := fun c =>
       ("projections contained duplicate output name '" ++ c
          ++ "'. It's possible that multiple expressions are returning the"
          ++ " same default column name. If this is the case, try renaming"
          ++ " the columns with `.alias(" ++ Text.quoted "new_name"
          ++ ")` to avoid duplicate column names.")%string |}.

(** The convention of the spec's example: metadata columns carry the
    prefix [Metadata_]. *)
Definition is_metadata_column (c : string) : bool := String.prefix "Metadata_" c.

Definition column (n : string) (t : DataType) (vs : list Value) : Series :=
  mkSeries n t vs.

(** Plate P1: three rows. *)
Definition P1 : DataFrame :=
  [ column "Metadata_Plate" Utf8 [StrV "P1"; StrV "P1"; StrV "P1"];
    column "Metadata_Well" Utf8 [StrV "A01"; StrV "A02"; StrV "A03"];
    column "Feature_1" Int64 [IntV 11; IntV 12; IntV 13];
    column "Feature_2" Int64 [IntV 21; IntV 22; IntV 23] ].

(** Plate P2: two rows, the columns of P1. *)
Definition P2 : DataFrame :=
  [ column "Metadata_Plate" Utf8 [StrV "P2"; StrV "P2"];
    column "Metadata_Well" Utf8 [StrV "B01"; StrV "B02"];
    column "Feature_1" Int64 [IntV 14; IntV 15];
    column "Feature_2" Int64 [IntV 24; IntV 25] ].

(** A plate without metadata columns. *)
Definition bare : DataFrame :=
  [ column "Feature_1" Int64 [IntV 1; IntV 2] ].

(** A plate with one metadata column. *)
Definition tagged : DataFrame :=
  [ column "Metadata_Plate" Utf8 [StrV "P4"];
    column "Feature_1" Int64 [IntV 4] ].

(** What polars raises for a file that does not end as a parquet file
    does. *)
Definition not_parquet : Exc :=
  mkExc ComputeError
    "parquet: File out of specification: The file must end with PAR1".

(** None of the directories below is read as a data set in what follows;
    each is given the exception of a directory without parquet data. *)
Definition no_data_set : Result DataFrame :=
  Raised (mkExc ComputeError "expanded paths were empty").

Definition disk : Node :=
  Dir [ ("profiles",
         Dir [ ("P1.parquet", File (Returned P1));
               ("notes.txt", File (Raised not_parquet));
               ("P2.parquet", File (Returned P2)) ] no_data_set);
        ("odd",
         Dir [ ("bare.parquet", File (Returned bare));
               ("tagged.parquet", File (Returned tagged)) ] no_data_set);
        ("empty", Dir [] no_data_set);
        ("copies",
         Dir [ ("plate.parquet", File (Returned P1)) ] no_data_set) ]
      no_data_set.

Definition world : World := {| root := disk; cwd := []; trace := [] |}.

Definition profiles : Path := Pathlib.of_str "profiles".
Definition p1 : Path := Pathlib.child profiles "P1.parquet".
Definition p2 : Path := Pathlib.child profiles "P2.parquet".
Definition p3 : Path := Pathlib.child profiles "P3.parquet".
Definition odd : Path := Pathlib.of_str "odd".
Definition tagged_file : Path := Pathlib.child odd "tagged.parquet".

(** P1 once more, under another name. *)
Definition copy_of_p1 : Path := Pathlib.of_str "copies/plate.parquet".

Definition load := load_and_concat_profiles polars is_metadata_column.

(** The table the spec's end-to-end example expects for P1 and P2 with the
    shared feature [Feature_1]: three columns, five rows. *)
Definition combined : DataFrame :=
  [ column "Metadata_Plate" Utf8
      [StrV "P1"; StrV "P1"; StrV "P1"; StrV "P2"; StrV "P2"];
    column "Metadata_Well" Utf8
      [StrV "A01"; StrV "A02"; StrV "A03"; StrV "B01"; StrV "B02"];
    column "Feature_1" Int64 [IntV 11; IntV 12; IntV 13; IntV 14; IntV 15] ].



(** A file of [profiles] that is not parquet. *)
Definition notes : Path := Pathlib.child profiles "notes.txt".

(** The schemas shared by P1 and P2. *)
Definition meta_schema : list (string * DataType) :=
  [("Metadata_Plate", Utf8); ("Metadata_Well", Utf8)].

Definition feature_schema : list (string * DataType) :=
  [("Feature_2", Int64); ("Feature_1", Int64)].

(** Another disk, holding P1 and nothing else, seen after some activity. *)
Definition lone_world : World :=
  {| root := Dir [ ("profiles",
                    Dir [ ("P1.parquet", File (Returned P1)) ] no_data_set) ]
               no_data_set;
     cwd := [];
     trace := [EvExists profiles] |}.

(** The disk of [world] with the directory [profiles] listed the other way
    round, and nothing else on it. *)
Definition reordered_world : World :=
  {| root := Dir [ ("profiles",
                    Dir [ ("P2.parquet", File (Returned P2));
                          ("P1.parquet", File (Returned P1)) ] no_data_set) ]
               no_data_set;
     cwd := [];
     trace := [] |}.

End Example.

(* ===================================================================== *)
(** * Facts about the world and the trace *)
(* ===================================================================== *)

Lemma extend_nil w : extend w [] = w.
Proof. destruct w; unfold extend; simpl. now rewrite app_nil_r. Qed.

Lemma extend_extend w a b : extend (extend w a) b = extend w (a ++ b).
Proof. unfold extend; simpl. now rewrite app_assoc. Qed.

Lemma resolve_extend w evs p : resolve (extend w evs) p = resolve w p.
Proof. reflexivity. Qed.

Lemma parquet_at_extend w evs p : parquet_at (extend w evs) p = parquet_at w p.
Proof. reflexivity. Qed.

Lemma reads_app a b : reads (a ++ b) = reads a ++ reads b.
Proof. unfold reads. now rewrite flat_map_app. Qed.

Lemma reads_read_events files : reads (map EvRead files) = files.
Proof. induction files as [|f files IH]; simpl; [|rewrite IH]; reflexivity. Qed.

Lemma reads_exists_events l : reads (map EvExists l) = [].
Proof. induction l as [|p l IH]; simpl; auto. Qed.

Lemma as_paths_paths l : as_paths (map PyPath l) = l.
Proof. induction l as [|p l IH]; simpl; [|rewrite IH]; reflexivity. Qed.

Lemma forallb_is_path_paths l : forallb is_path (map PyPath l) = true.
Proof. induction l as [|p l IH]; simpl; auto. Qed.

(** Unfolding one monadic step. *)
Ltac step :=
  unfold bind, ret, raise, lift, path_exists, glob_star, read_parquet, record;
  simpl.

(* ===================================================================== *)
(** * Facts about text *)
(* ===================================================================== *)

Lemma prefix_refl_app s t : String.prefix s (s ++ t)%string = true.
Proof.
  induction s as [|c s IH]; simpl.
  - now destruct t.
  - destruct (ascii_dec c c); [assumption | congruence].
Qed.

Lemma contains_suffix pre s t : Text.contains s (pre ++ s ++ t)%string = true.
Proof.
  induction pre as [|c pre IH]; simpl.
  - pose proof (prefix_refl_app s t) as P.
    change ("" ++ s ++ t)%string with (s ++ t)%string.
    destruct (s ++ t)%string; unfold Text.contains; fold Text.contains;
      rewrite P; reflexivity.
  - rewrite IH. apply orb_true_r.
Qed.

Lemma contains_tail pre s : Text.contains s (pre ++ s)%string = true.
Proof.
  pose proof (contains_suffix pre s "") as H.
  replace (s ++ "")%string with s in H; [assumption|].
  clear. induction s; simpl; congruence.
Qed.

Lemma mem_In x l : Text.mem x l = true <-> In x l.
Proof.
  unfold Text.mem. rewrite existsb_exists. split.
  - intros [y [Hy E]]. apply String.eqb_eq in E. now subst.
  - intros H. exists x. split; [assumption | apply String.eqb_refl].
Qed.

Lemma mem_false x l : Text.mem x l = false <-> ~ In x l.
Proof.
  rewrite <- mem_In. destruct (Text.mem x l); split; congruence.
Qed.

(* ===================================================================== *)
(** * Facts about the choice of the files *)
(* ===================================================================== *)

Definition present (w : World) (p : Path) : Prop := resolve w p <> None.

Lemma check_plates_exist_all plates : forall w,
  Forall (present w) plates ->
  check_plates_exist plates w = (extend w (map EvExists plates), Returned tt).
Proof.
  induction plates as [|p plates IH]; intros w H.
  - simpl. unfold ret. now rewrite extend_nil.
  - inversion H as [|? ? Hp Hrest]; subst. simpl. step.
    unfold present in Hp. destruct (resolve w p) eqn:E; [|congruence]. simpl.
    rewrite (IH (extend w [EvExists p])) by exact Hrest.
    now rewrite extend_extend.
Qed.

Lemma check_plates_exist_missing pre p post : forall w,
  Forall (present w) pre ->
  resolve w p = None ->
  check_plates_exist (pre ++ p :: post) w
  = (extend w (map EvExists (pre ++ [p])), Raised (profile_not_found p)).
Proof.
  induction pre as [|q pre IH]; intros w Hpre Hp.
  - simpl. step. now rewrite Hp.
  - inversion Hpre as [|? ? Hq Hrest]; subst. simpl. step.
    unfold present in Hq. destruct (resolve w q) eqn:E; [|congruence]. simpl.
    rewrite (IH (extend w [EvExists q])) by assumption.
    now rewrite extend_extend.
Qed.

(** The first missing path of a list that has one. *)
Lemma first_missing w plates :
  (exists p, In p plates /\ resolve w p = None) ->
  exists pre p post,
    plates = pre ++ p :: post /\ Forall (present w) pre /\ resolve w p = None.
Proof.
  induction plates as [|q plates IH]; intros [p [Hin Hp]].
  - contradiction.
  - destruct (resolve w q) eqn:E.
    + destruct Hin as [->|Hin]; [congruence|].
      destruct IH as [pre [p' [post [-> [Hpre Hp']]]]]; [now exists p|].
      exists (q :: pre), p', post. repeat split; auto.
      constructor; [unfold present; congruence | assumption].
    + exists [], q, plates. repeat split; auto.
Qed.

(** The checks and the discovery only add to the trace, and read nothing. *)
Lemma check_plates_exist_trace plates : forall w,
  exists evs,
    check_plates_exist plates w = (extend w evs, snd (check_plates_exist plates w))
    /\ reads evs = [].
Proof.
  induction plates as [|p plates IH]; intros w.
  - exists []. simpl. unfold ret. now rewrite extend_nil.
  - simpl. step. destruct (resolve w p); simpl.
    + destruct (IH (extend w [EvExists p])) as [evs [E R]].
      exists (EvExists p :: evs). rewrite E at 1. rewrite extend_extend. simpl.
      split; [reflexivity | assumption].
    + exists [EvExists p]. split; reflexivity.
Qed.

Lemma choose_files_trace dir plates w :
  exists evs,
    choose_files dir plates w = (extend w evs, chosen_files w dir plates)
    /\ reads evs = [].
Proof.
  unfold chosen_files, choose_files.
  assert (Hnil : forall r : Result (list Path),
             exists evs, (w, r) = (extend w evs, r) /\ reads evs = []).
  { intros r. exists []. now rewrite extend_nil. }
  unfold bind, lift.
  destruct (coerce_dir dir) as [e|d]; simpl; [apply Hnil|].
  destruct (check_specific_plates plates) as [e|[l|]]; simpl; [apply Hnil| |].
  - unfold bind, ret.
    destruct (check_plates_exist_trace l w) as [evs [E R]].
    rewrite E. exists evs. split; [|assumption].
    destruct (snd (check_plates_exist l w)); reflexivity.
  - step. exists [EvGlob d "*.parquet"]. split; [|reflexivity].
    destruct (matching_files w d ".parquet"); reflexivity.
Qed.

(* ===================================================================== *)
(** * Facts about [select] *)
(* ===================================================================== *)

Lemma get_column_none df c : get_column df c = None <-> ~ In c (columns df).
Proof.
  induction df as [|s df IH]; simpl.
  - tauto.
  - destruct (String.eqb c (name s)) eqn:E.
    + apply String.eqb_eq in E. split; [discriminate | intros H; exfalso; auto].
    + apply String.eqb_neq in E. rewrite IH. split; [intros H [H'|H'] | ]; auto.
Qed.

Lemma get_column_some df c s :
  get_column df c = Some s -> In s df /\ name s = c.
Proof.
  induction df as [|s' df IH]; simpl; [discriminate|].
  destruct (String.eqb c (name s')) eqn:E.
  - apply String.eqb_eq in E. intros [= ->]. auto.
  - intros H. destruct (IH H). auto.
Qed.

Lemma get_column_in df c s :
  get_column df c = Some s -> In c (columns df).
Proof.
  intros H. destruct (get_column_some _ _ _ H) as [Hin <-].
  unfold columns. now apply in_map.
Qed.

Section SelectFacts.

Variable p : Polars.

(** A projection loop that returns has selected exactly the names, each
    once, all of them columns of the frame. *)
Lemma select_from_returned df : forall names seen out,
  select_from p df seen names = Returned out ->
  columns out = names
  /\ NoDup names
  /\ Forall (fun c => ~ In c seen) names
  /\ Forall (fun c => In c (columns df)) names
  /\ Forall (fun s => In s df) out.
Proof.
  induction names as [|c names IH]; intros seen out H; simpl in H.
  - injection H as <-. repeat split; constructor.
  - destruct (get_column df c) as [s|] eqn:G; [|discriminate].
    destruct (Text.mem c seen) eqn:Mem; [discriminate|].
    destruct (select_from p df (c :: seen) names) as [e|out'] eqn:S;
      [discriminate|].
    simpl in H. injection H as <-.
    destruct (IH _ _ S) as [Hc [Hnd [Hseen [Hin Hsub]]]].
    destruct (get_column_some _ _ _ G) as [Hs Hn].
    apply mem_false in Mem.
    rewrite Forall_forall in Hseen.
    repeat split.
    + simpl. now rewrite Hc, Hn.
    + constructor; [|assumption]. intros Hx. apply (Hseen c Hx). now left.
    + constructor; [assumption|]. rewrite Forall_forall. intros x Hx Hs'.
      apply (Hseen x Hx). now right.
    + constructor; [|assumption]. eapply get_column_in; eauto.
    + constructor; assumption.
Qed.

(** Distinct names that the frame has are always selected. *)
Lemma select_from_total df : forall names seen,
  NoDup names ->
  Forall (fun c => ~ In c seen) names ->
  Forall (fun c => In c (columns df)) names ->
  exists out, select_from p df seen names = Returned out.
Proof.
  induction names as [|c names IH]; intros seen Hnd Hseen Hin; simpl.
  - eauto.
  - inversion Hnd as [|? ? Hc Hnd']; subst.
    inversion Hseen as [|? ? Hcs Hseen']; subst.
    inversion Hin as [|? ? Hci Hin']; subst.
    destruct (get_column df c) as [s|] eqn:G;
      [|apply get_column_none in G; contradiction].
    apply mem_false in Hcs. rewrite Hcs.
    destruct (IH (c :: seen)) as [out ->]; auto.
    + rewrite Forall_forall in *. intros x Hx [<-|Hs]; [contradiction|].
      now apply (Hseen' x Hx).
    + simpl. eauto.
Qed.

(** The first name that is missing or repeated decides the exception: a
    missing one ... *)
Lemma select_from_first_missing df c post : forall pre seen,
  NoDup pre ->
  Forall (fun x => ~ In x seen) pre ->
  Forall (fun x => In x (columns df)) pre ->
  ~ In c (columns df) ->
  select_from p df seen (pre ++ c :: post) = Raised (column_not_found p c df).
Proof.
  induction pre as [|x pre IH]; intros seen Hnd Hseen Hin Hc; simpl.
  - apply get_column_none in Hc. now rewrite Hc.
  - inversion Hnd as [|? ? Hx Hnd']; subst.
    inversion Hseen as [|? ? Hxs Hseen']; subst.
    inversion Hin as [|? ? Hxi Hin']; subst.
    destruct (get_column df x) as [s|] eqn:G;
      [|apply get_column_none in G; contradiction].
    apply mem_false in Hxs. rewrite Hxs. rewrite IH; auto.
    rewrite Forall_forall in *. intros y Hy [<-|Hs]; [contradiction|].
    now apply (Hseen' y Hy).
Qed.

(** ... or a repeated one. *)
Lemma select_from_first_repeat df c post : forall pre seen,
  NoDup pre ->
  Forall (fun x => ~ In x seen) pre ->
  Forall (fun x => In x (columns df)) pre ->
  In c (columns df) ->
  In c seen \/ In c pre ->
  select_from p df seen (pre ++ c :: post) = Raised (duplicate_name p c).
Proof.
  induction pre as [|x pre IH]; intros seen Hnd Hseen Hin Hc Hrep; simpl.
  - destruct (get_column df c) as [s|] eqn:G;
      [|apply get_column_none in G; contradiction].
    destruct Hrep as [Hs|[]]. apply mem_In in Hs. now rewrite Hs.
  - inversion Hnd as [|? ? Hx Hnd']; subst.
    inversion Hseen as [|? ? Hxs Hseen']; subst.
    inversion Hin as [|? ? Hxi Hin']; subst.
    destruct (get_column df x) as [s|] eqn:G;
      [|apply get_column_none in G; contradiction].
    apply mem_false in Hxs. rewrite Hxs. rewrite IH; auto.
    + rewrite Forall_forall in *. intros y Hy [<-|Hs]; [contradiction|].
      now apply (Hseen' y Hy).
    + destruct Hrep as [Hs|[<-|Hp]]; simpl; auto.
Qed.

(** The columns a projection returns are the frame's own, looked up by
    name. *)
Lemma select_from_lookup df : forall names seen out,
  select_from p df seen names = Returned out ->
  Forall2 (fun c s => get_column df c = Some s) names out.
Proof.
  induction names as [|c names IH]; intros seen out H; simpl in H.
  - injection H as <-. constructor.
  - destruct (get_column df c) as [s|] eqn:G; [|discriminate].
    destruct (Text.mem c seen); [discriminate|].
    destruct (select_from p df (c :: seen) names) as [e|out'] eqn:S;
      [discriminate|].
    simpl in H. injection H as <-. constructor; eauto.
Qed.

(** A plain name stands for itself. *)
Lemma stands_for_plain df n :
  plain_name n = true -> stands_for p df n = Returned [n].
Proof.
  unfold plain_name, stands_for. intros H.
  apply andb_true_iff in H as [H1 H2].
  apply negb_true_iff in H1, H2. now rewrite H1, H2.
Qed.

(** Any other name stands for columns of the frame. *)
Lemma stands_for_columns df n cs :
  stands_for p df n = Returned cs ->
  plain_name n = false ->
  Forall (fun c => In c (columns df)) cs.
Proof.
  unfold plain_name, stands_for.
  destruct (String.eqb n "*").
  - intros [= <-] _. rewrite Forall_forall. auto.
  - destruct (is_regex_projection n); [|discriminate].
    destruct (regex p n) as [e|test]; simpl; [discriminate|].
    intros [= <-] _. rewrite Forall_forall. intros c Hc.
    now apply filter_In in Hc.
Qed.

Lemma expand_plain df names :
  Forall (fun n => plain_name n = true) names ->
  expand p df names = Returned names.
Proof.
  induction 1 as [|n names Hn F IH]; simpl; [reflexivity|].
  now rewrite (stands_for_plain df n Hn), IH.
Qed.

Lemma expand_app df : forall a b,
  expand p df (a ++ b)
  = rbind (expand p df a) (fun x =>
    rbind (expand p df b) (fun y => Returned (x ++ y))).
Proof.
  induction a as [|n a IH]; intros b; simpl.
  - now destruct (expand p df b).
  - destruct (stands_for p df n) as [e|cs]; simpl; [reflexivity|].
    rewrite IH. destruct (expand p df a) as [e|x]; simpl; [reflexivity|].
    destruct (expand p df b) as [e|y]; simpl; [reflexivity|].
    now rewrite app_assoc.
Qed.

(** What a listed name stands for is among the names selected. *)
Lemma expand_in df : forall names E n cs,
  expand p df names = Returned E ->
  In n names ->
  stands_for p df n = Returned cs ->
  incl cs E.
Proof.
  induction names as [|m names IH]; intros E n cs H Hin Hn; simpl in *;
    [contradiction|].
  destruct (stands_for p df m) as [e|ms] eqn:Hm; simpl in H; [discriminate|].
  destruct (expand p df names) as [e|more] eqn:Hx; simpl in H; [discriminate|].
  injection H as <-. destruct Hin as [->|Hin].
  - rewrite Hn in Hm. injection Hm as <-. now apply incl_appl.
  - apply incl_appr. eapply IH; eauto.
Qed.

(** An expansion that returns has expanded every listed name. *)
Lemma expand_each df : forall names E n,
  expand p df names = Returned E ->
  In n names ->
  exists cs, stands_for p df n = Returned cs /\ incl cs E.
Proof.
  intros names E n H Hin.
  assert (S : exists cs, stands_for p df n = Returned cs).
  { revert E H. induction names as [|m names IH]; intros E H; simpl in *;
      [contradiction|].
    destruct (stands_for p df m) as [e|ms] eqn:Hm; simpl in H; [discriminate|].
    destruct (expand p df names) as [e|more] eqn:Hx; simpl in H;
      [discriminate|].
    destruct Hin as [<-|Hin]; [now exists ms | eapply IH; eauto]. }
  destruct S as [cs Hs]. exists cs. split; [assumption|].
  eapply expand_in; eauto.
Qed.

(** A name selected is a column of the frame or a plain name of the
    list. *)
Lemma expand_origin df : forall names E c,
  expand p df names = Returned E ->
  In c E ->
  In c (columns df) \/ (plain_name c = true /\ In c names).
Proof.
  induction names as [|m names IH]; intros E c H Hc; simpl in H.
  - injection H as <-. contradiction.
  - destruct (stands_for p df m) as [e|ms] eqn:Hm; simpl in H; [discriminate|].
    destruct (expand p df names) as [e|more] eqn:Hx; simpl in H; [discriminate|].
    injection H as <-. apply in_app_or in Hc as [Hc|Hc].
    + destruct (plain_name m) eqn:Pm.
      * rewrite (stands_for_plain df m Pm) in Hm. injection Hm as <-.
        destruct Hc as [<-|[]]. right. simpl; auto.
      * left. pose proof (stands_for_columns _ _ _ Hm Pm) as F.
        rewrite Forall_forall in F. auto.
    + destruct (IH _ _ eq_refl Hc) as [H|[H1 H2]]; [now left|].
      right. simpl; auto.
Qed.

End SelectFacts.

(* ===================================================================== *)
(** * Facts about [concat] *)
(* ===================================================================== *)

Lemma columns_of_schema a b : schema a = schema b -> columns a = columns b.
Proof.
  unfold schema, columns. revert b.
  induction a as [|l a IH]; destruct b as [|r b]; simpl; try discriminate; auto.
  intros [= Hn Hd Hs]. now rewrite Hn, (IH b).
Qed.

Lemma dtype_eqb_eq a b : dtype_eqb a b = true <-> a = b.
Proof. destruct a, b; simpl; split; congruence. Qed.

(** Appending column by column keeps the schema and adds the heights. *)
Lemma append_columns_returned : forall acc other out,
  width acc = width other ->
  append_columns acc other = Returned out ->
  schema other = schema acc /\ schema out = schema acc
  /\ height out = height acc + height other.
Proof.
  induction acc as [|l acc IH]; intros [|r other] out W H;
    simpl in W; try discriminate.
  - injection H as <-. auto.
  - simpl in H.
    destruct (String.eqb (name l) (name r)) eqn:En; [|discriminate].
    destruct (dtype_eqb (dtype l) (dtype r)) eqn:Ed; [|discriminate].
    simpl in H.
    destruct (append_columns acc other) as [e|out'] eqn:A; [discriminate|].
    simpl in H. injection H as <-.
    apply String.eqb_eq in En. apply dtype_eqb_eq in Ed.
    destruct (IH other out') as [H1 [H2 _]]; auto.
    unfold schema in *. simpl. rewrite H1, H2, En, Ed.
    repeat split. now rewrite length_app.
Qed.

(** ... and puts the cells of the second frame under those of the first. *)
Lemma append_columns_values : forall acc other out,
  width acc = width other ->
  append_columns acc other = Returned out ->
  forall c, column_values c out = column_values c acc ++ column_values c other.
Proof.
  induction acc as [|l acc IH]; intros [|r other] out W H c;
    simpl in W; try discriminate.
  - injection H as <-. reflexivity.
  - simpl in H.
    destruct (String.eqb (name l) (name r)) eqn:En; [|discriminate].
    destruct (dtype_eqb (dtype l) (dtype r)) eqn:Ed; [|discriminate].
    simpl in H.
    destruct (append_columns acc other) as [e|out'] eqn:A; [discriminate|].
    simpl in H. injection H as <-.
    apply String.eqb_eq in En.
    unfold column_values. simpl. rewrite <- En.
    destruct (String.eqb c (name l)); [reflexivity|].
    apply (IH other out'); auto.
Qed.

Lemma append_columns_same_schema : forall acc other,
  schema other = schema acc ->
  exists out, append_columns acc other = Returned out.
Proof.
  induction acc as [|l acc IH]; intros [|r other] H; unfold schema in H;
    simpl in H; try discriminate.
  - now exists [].
  - injection H as Hn Hd Hs. simpl.
    rewrite Hn, String.eqb_refl, Hd. simpl.
    replace (dtype_eqb (dtype l) (dtype l)) with true
      by (symmetry; now apply dtype_eqb_eq).
    simpl. destruct (IH other Hs) as [out ->]. simpl. eauto.
Qed.



(** A stacking that returns either started from a frame without columns and
    took the other frame, or joined two frames of one schema. *)
Lemma vstack_returned acc other out :
  vstack acc other = Returned out ->
  (acc = [] /\ out = other)
  \/ (schema other = schema acc /\ schema out = schema acc
      /\ height out = height acc + height other).
Proof.
  unfold vstack. destruct (width acc =? width other)%nat eqn:W; simpl.
  - apply Nat.eqb_eq in W. intros H. right.
    now apply append_columns_returned.
  - destruct acc; [|discriminate]. intros [= <-]. now left.
Qed.


Lemma columns_nil df : columns df = [] -> df = [].
Proof. destruct df; [reflexivity | discriminate]. Qed.

(** Every stacked frame that has a column has the columns of the result. *)
Lemma vstack_all_returned : forall items acc out,
  vstack_all acc items = Returned out ->
  Forall (fun t => t = [] \/ columns t = columns out) (acc :: items).
Proof.
  induction items as [|df items IH]; intros acc out H; simpl in H.
  - injection H as <-. constructor; [now right | constructor].
  - destruct (vstack acc df) as [e'|acc'] eqn:V; simpl in H; [discriminate|].
    pose proof (IH _ _ H) as F. inversion F as [|? ? Hacc' Hrest]; subst.
    destruct (vstack_returned _ _ _ V) as [[-> ->]|[S1 [S2 _]]].
    + constructor; [now left|]. constructor; assumption.
    + apply columns_of_schema in S1. apply columns_of_schema in S2.
      assert (Hacc : acc = [] \/ columns acc = columns out).
      { destruct Hacc' as [->|E]; [left; now apply columns_nil|right; congruence]. }
      constructor; [assumption|]. constructor; [|assumption].
      destruct Hacc' as [->|E]; [left|right; congruence].
      apply columns_nil. now rewrite S1, <- S2.
Qed.

(** The result has the columns of one of the stacked frames. *)
Lemma vstack_all_columns : forall items acc out,
  vstack_all acc items = Returned out ->
  exists t, In t (acc :: items) /\ columns out = columns t.
Proof.
  induction items as [|df items IH]; intros acc out H; simpl in H.
  - injection H as <-. exists acc. simpl; auto.
  - destruct (vstack acc df) as [e'|acc'] eqn:V; simpl in H; [discriminate|].
    destruct (IH _ _ H) as [t [[<-|Hin] Ht]].
    + exists df. split; [simpl; auto|].
      destruct (vstack_returned _ _ _ V) as [[_ ->]|[S1 [S2 _]]]; [assumption|].
      rewrite Ht. apply columns_of_schema. congruence.
    + exists t. simpl; auto.
Qed.

(** Frames of one schema stack, and the heights add up. *)
Lemma vstack_all_same_schema sch : forall items acc,
  schema acc = sch ->
  Forall (fun t => schema t = sch) items ->
  exists out,
    vstack_all acc items = Returned out /\ schema out = sch
    /\ height out = height acc + list_sum (map height items)
    /\ forall c,
         column_values c out
         = column_values c acc ++ flat_map (column_values c) items.
Proof.
  induction items as [|df items IH]; intros acc Ha F; simpl.
  - exists acc. repeat split; auto. intros c. now rewrite app_nil_r.
  - inversion F as [|? ? Hdf Hrest]; subst.
    assert (W : width acc = width df).
    { unfold width. rewrite <- (length_map (fun s => (name s, dtype s)) acc),
        <- (length_map (fun s => (name s, dtype s)) df).
      fold (schema acc). fold (schema df). now rewrite Hdf. }
    destruct (append_columns_same_schema acc df Hdf) as [acc' A].
    unfold vstack. rewrite W, Nat.eqb_refl. simpl. rewrite A. simpl.
    destruct (append_columns_returned _ _ _ W A) as [_ [S2 Hh]].
    destruct (IH acc' S2 Hrest) as [out [E [S [Hh' Hv]]]].
    exists out. repeat split; auto; [lia|].
    intros c. now rewrite Hv, (append_columns_values _ _ _ W A), app_assoc.
Qed.

(* ===================================================================== *)
(** * Calls that only read *)
(* ===================================================================== *)

(** A computation only reads when, on a given tree, it appends one fixed
    run of events to whatever trace it starts from, gives one fixed
    outcome, and leaves the tree as it was. *)
Definition reads_only {A} (m : M A) : Prop :=
  forall rt cw, exists evs r,
    forall t, m (mkWorld rt cw t) = (mkWorld rt cw (t ++ evs), r).

Lemma reads_only_lift {A} (r : Result A) : reads_only (lift r).
Proof.
  intros rt cw. exists [], r. intros t. unfold lift. now rewrite app_nil_r.
Qed.

Lemma reads_only_ret {A} (a : A) : reads_only (ret a).
Proof. apply (reads_only_lift (Returned a)). Qed.

Lemma reads_only_raise {A} (e : Exc) : reads_only (@raise A e).
Proof. apply (reads_only_lift (Raised e)). Qed.

Lemma reads_only_bind {A B} (m : M A) (k : A -> M B) :
  reads_only m -> (forall a, reads_only (k a)) -> reads_only (bind m k).
Proof.
  intros Hm Hk rt cw. destruct (Hm rt cw) as [evs [r E]].
  destruct r as [e|a].
  - exists evs, (Raised e). intros t. unfold bind. now rewrite E.
  - destruct (Hk a rt cw) as [evs' [r' E']].
    exists (evs ++ evs'), r'. intros t. unfold bind.
    now rewrite E, E', app_assoc.
Qed.

Lemma reads_only_path_exists p : reads_only (path_exists p).
Proof.
  intros rt cw. exists [EvExists p], (snd (path_exists p (mkWorld rt cw []))).
  intros t. reflexivity.
Qed.

Lemma reads_only_glob_star dir suffix : reads_only (glob_star dir suffix).
Proof.
  intros rt cw.
  exists [EvGlob dir ("*" ++ suffix)], (snd (glob_star dir suffix (mkWorld rt cw []))).
  intros t. reflexivity.
Qed.

Lemma reads_only_read_parquet file : reads_only (read_parquet file).
Proof.
  intros rt cw. exists [EvRead file], (snd (read_parquet file (mkWorld rt cw []))).
  intros t. reflexivity.
Qed.

Lemma reads_only_for_each {A B} (f : A -> M B) (l : list A) :
  (forall x, reads_only (f x)) -> reads_only (for_each f l).
Proof.
  intros Hf. induction l as [|x l IH]; simpl.
  - apply reads_only_ret.
  - apply reads_only_bind; [apply Hf|]. intros y.
    apply reads_only_bind; [apply IH|]. intros ys. apply reads_only_ret.
Qed.

Lemma reads_only_check_plates_exist plates : reads_only (check_plates_exist plates).
Proof.
  induction plates as [|p plates IH]; simpl.
  - apply reads_only_ret.
  - apply reads_only_bind; [apply reads_only_path_exists|].
    intros [|]; simpl; [apply IH | apply reads_only_raise].
Qed.

Lemma reads_only_files_to_load dir plates : reads_only (files_to_load dir plates).
Proof.
  destruct plates as [l|]; simpl.
  - apply reads_only_bind; [apply reads_only_check_plates_exist|].
    intros _. apply reads_only_ret.
  - apply reads_only_bind; [apply reads_only_glob_star|].
    intros [|p found]; [apply reads_only_raise | apply reads_only_ret].
Qed.

(* ===================================================================== *)
(** * Facts about loading *)
(* ===================================================================== *)

Lemma Forall2_in_right {A B} (R : A -> B -> Prop) l l' y :
  Forall2 R l l' -> In y l' -> exists x, In x l /\ R x y.
Proof.
  induction 1 as [|a b l l' Hab F IH]; simpl; [contradiction|].
  intros [<-|Hin].
  - exists a. auto.
  - destruct (IH Hin) as [x [Hx Hr]]. exists x. auto.
Qed.

Lemma Forall2_Forall_left {A B} (R S : A -> B -> Prop) (Q : A -> Prop) l l' :
  Forall2 R l l' -> Forall Q l ->
  (forall a b, R a b -> Q a -> S a b) ->
  Forall2 S l l'.
Proof.
  intros F. induction F as [|a b l l' Hab F IH]; intros HQ Himp; [constructor|].
  inversion HQ; subst. constructor; auto.
Qed.

Lemma NoDup_app_disjoint {A} (a b : list A) x :
  NoDup (a ++ b) -> In x a -> In x b -> False.
Proof.
  induction a as [|y a IH]; simpl; [contradiction|].
  intros H [->|Hin] Hb.
  - inversion H as [|? ? Hn _]; subst. apply Hn, in_or_app. now right.
  - inversion H; subst. eauto.
Qed.

Lemma NoDup_app_intro {A} (a b : list A) :
  NoDup a -> NoDup b -> (forall x, In x a -> In x b -> False) -> NoDup (a ++ b).
Proof.
  induction a as [|y a IH]; simpl; [auto|]. intros Ha Hb Hd.
  inversion Ha as [|? ? Hn Ha']; subst. constructor.
  - intros Hin. apply in_app_or in Hin as [Hin|Hin]; [auto|]. eapply Hd; eauto.
  - apply IH; eauto.
Qed.

Lemma NoDup_app_right {A} (a b : list A) : NoDup (a ++ b) -> NoDup b.
Proof.
  induction a as [|y a IH]; simpl; [auto|]. intros H. inversion H; auto.
Qed.

Lemma filter_all {A} (f : A -> bool) l :
  Forall (fun x => f x = true) l -> filter f l = l.
Proof.
  induction 1 as [|x l Hx F IH]; simpl; [reflexivity|]. now rewrite Hx, IH.
Qed.

Lemma filter_none {A} (f : A -> bool) l :
  Forall (fun x => f x = false) l -> filter f l = [].
Proof.
  induction 1 as [|x l Hx F IH]; simpl; [reflexivity|]. now rewrite Hx, IH.
Qed.

Lemma string_app_assoc (a b c : string) :
  ((a ++ b) ++ c = a ++ (b ++ c))%string.
Proof. induction a as [|x a IH]; simpl; [reflexivity | now rewrite IH]. Qed.

Lemma column_not_found_names p c df :
  names_text (column_not_found p c df) c = true.
Proof.
  unfold names_text, column_not_found, Text.quoted. cbn [exc_msg].
  rewrite (string_app_assoc Text.dquote), <- (string_app_assoc _ Text.dquote).
  rewrite (string_app_assoc c).
  apply contains_suffix.
Qed.

Section LoadingFacts.

Variable polars : Polars.
Variable is_metadata_column : string -> bool.

Local Abbreviation split := (split_meta_and_features is_metadata_column).
Local Abbreviation table_of := (loaded_table polars is_metadata_column).
Local Abbreviation load_one := (load_profile polars is_metadata_column).
Local Abbreviation loader := (load_and_concat_profiles polars is_metadata_column).

Lemma load_profile_run sf f w :
  load_one sf f w = (extend w [EvRead f], table_of w sf f).
Proof.
  unfold load_profile, loaded_table, project. step.
  destruct (parquet_at w f); [reflexivity|]. simpl. destruct sf; reflexivity.
Qed.

Lemma table_of_extend w evs sf f : table_of (extend w evs) sf f = table_of w sf f.
Proof. reflexivity. Qed.

(** Every file loads: all are read, in order. *)
Lemma for_each_load_all sf : forall files tables w,
  Forall2 (fun f t => table_of w sf f = Returned t) files tables ->
  for_each (load_one sf) files w = (extend w (map EvRead files), Returned tables).
Proof.
  induction files as [|f files IH]; intros tables w F; inversion F; subst.
  - simpl. unfold ret. now rewrite extend_nil.
  - simpl. unfold bind at 1. rewrite load_profile_run.
    match goal with H : table_of w sf f = _ |- _ => rewrite H end.
    unfold bind at 1.
    rewrite (IH l' (extend w [EvRead f])) by assumption.
    unfold ret. now rewrite extend_extend.
Qed.

(** A file fails after its predecessors loaded: nothing after it is read. *)
Lemma for_each_load_stops sf e f post : forall pre tables w,
  Forall2 (fun g t => table_of w sf g = Returned t) pre tables ->
  table_of w sf f = Raised e ->
  for_each (load_one sf) (pre ++ f :: post) w
  = (extend w (map EvRead (pre ++ [f])), Raised e).
Proof.
  induction pre as [|g pre IH]; intros tables w F Hf; inversion F; subst.
  - simpl. unfold bind at 1. now rewrite load_profile_run, Hf.
  - simpl. unfold bind at 1. rewrite load_profile_run.
    match goal with H : table_of w sf g = _ |- _ => rewrite H end.
    unfold bind at 1.
    rewrite (IH l' (extend w [EvRead g])) by assumption.
    now rewrite extend_extend.
Qed.

(** A list holding a file that cannot be loaded never loads whole. *)
Lemma for_each_load_never sf f e : forall files w,
  In f files -> table_of w sf f = Raised e ->
  is_returned (snd (for_each (load_one sf) files w)) = false.
Proof.
  induction files as [|g files IH]; intros w Hin Hf; [contradiction|].
  simpl. unfold bind at 1. rewrite load_profile_run.
  destruct (table_of w sf g) as [e'|t] eqn:G; [reflexivity|].
  destruct Hin as [->|Hin]; [congruence|].
  unfold bind at 1.
  specialize (IH (extend w [EvRead g]) Hin Hf).
  destruct (for_each (load_one sf) files (extend w [EvRead g])) as [w2 [e2|ts]];
    [reflexivity | discriminate].
Qed.

Lemma for_each_load_returned sf : forall files tables w w',
  for_each (load_one sf) files w = (w', Returned tables) ->
  Forall2 (fun f t => table_of w sf f = Returned t) files tables
  /\ w' = extend w (map EvRead files).
Proof.
  induction files as [|f files IH]; intros tables w w' H; simpl in H.
  - unfold ret in H. injection H as <- <-. rewrite extend_nil. auto.
  - unfold bind at 1 in H. rewrite load_profile_run in H.
    destruct (table_of w sf f) as [e|t] eqn:T; [discriminate|].
    unfold bind at 1 in H.
    destruct (for_each (load_one sf) files (extend w [EvRead f]))
      as [w2 [e|ts]] eqn:E; [discriminate|].
    unfold ret in H. injection H as <- <-.
    destruct (IH _ _ _ E) as [F ->]. rewrite extend_extend. auto.
Qed.

(** The loader in three stages: choose the files, load them, stack them. *)
Lemma loader_stages dir sf plates w :
  loader dir sf plates w
  = match choose_files dir plates w with
    | (w1, Raised e) => (w1, Raised e)
    | (w1, Returned files) =>
        match for_each (load_one sf) files w1 with
        | (w2, Raised e) => (w2, Raised e)
        | (w2, Returned tables) => (w2, concat tables)
        end
    end.
Proof.
  unfold load_and_concat_profiles, choose_files, bind, lift.
  destruct (coerce_dir dir) as [e|d]; [reflexivity|].
  destruct (check_specific_plates plates) as [e|l]; [reflexivity|].
  destruct (files_to_load d l w) as [w1 [e|files]]; [reflexivity|].
  destruct (for_each (load_one sf) files w1) as [w2 [e|tables]]; reflexivity.
Qed.

Lemma loader_stopped dir sf plates w e :
  chosen_files w dir plates = Raised e ->
  exists w', loader dir sf plates w = (w', Raised e)
             /\ reads (trace w') = reads (trace w).
Proof.
  intros H. rewrite loader_stages.
  destruct (choose_files_trace dir plates w) as [evs [E R]].
  rewrite E, H. eexists. split; [reflexivity|].
  simpl. now rewrite reads_app, R, app_nil_r.
Qed.

Lemma loader_loaded dir sf plates w files tables :
  chosen_files w dir plates = Returned files ->
  Forall2 (fun f t => table_of w sf f = Returned t) files tables ->
  exists w', loader dir sf plates w = (w', concat tables)
             /\ reads (trace w') = reads (trace w) ++ files.
Proof.
  intros H F. rewrite loader_stages.
  destruct (choose_files_trace dir plates w) as [evs [E R]].
  rewrite E, H.
  rewrite (for_each_load_all sf files tables (extend w evs)) by exact F.
  eexists. split; [reflexivity|].
  simpl. now rewrite !reads_app, R, reads_read_events, app_nil_r.
Qed.

Lemma loader_stops_at dir sf plates w pre f post tables e :
  chosen_files w dir plates = Returned (pre ++ f :: post) ->
  Forall2 (fun g t => table_of w sf g = Returned t) pre tables ->
  table_of w sf f = Raised e ->
  exists w', loader dir sf plates w = (w', Raised e)
             /\ reads (trace w') = reads (trace w) ++ pre ++ [f].
Proof.
  intros H F Hf. rewrite loader_stages.
  destruct (choose_files_trace dir plates w) as [evs [E R]].
  rewrite E, H.
  rewrite (for_each_load_stops sf e f post pre tables (extend w evs)) by assumption.
  eexists. split; [reflexivity|].
  simpl. now rewrite !reads_app, R, reads_read_events, app_nil_r.
Qed.

Lemma loader_never dir sf plates w files f e :
  chosen_files w dir plates = Returned files ->
  In f files -> table_of w sf f = Raised e ->
  is_returned (snd (loader dir sf plates w)) = false.
Proof.
  intros H Hin Hf. rewrite loader_stages.
  destruct (choose_files_trace dir plates w) as [evs [E R]].
  rewrite E, H.
  pose proof (for_each_load_never sf f e files (extend w evs) Hin Hf) as N.
  destruct (for_each (load_one sf) files (extend w evs)) as [w2 [e2|ts]];
    [reflexivity | discriminate].
Qed.

Lemma loader_returned dir sf plates w w' out :
  loader dir sf plates w = (w', Returned out) ->
  exists files tables,
    chosen_files w dir plates = Returned files
    /\ Forall2 (fun f t => table_of w sf f = Returned t) files tables
    /\ concat tables = Returned out
    /\ reads (trace w') = reads (trace w) ++ files.
Proof.
  rewrite loader_stages.
  destruct (choose_files_trace dir plates w) as [evs [E R]].
  rewrite E. destruct (chosen_files w dir plates) as [e|files]; [discriminate|].
  destruct (for_each (load_one sf) files (extend w evs)) as [w2 [e2|ts]] eqn:L;
    [discriminate|].
  intros [= <- C].
  destruct (for_each_load_returned _ _ _ _ _ L) as [F ->].
  exists files, ts. repeat split; auto.
  simpl. now rewrite !reads_app, R, reads_read_events, app_nil_r.
Qed.

Lemma reads_only_loader dir sf plates : reads_only (loader dir sf plates).
Proof.
  unfold load_and_concat_profiles.
  apply reads_only_bind; [apply reads_only_lift|]. intros d.
  apply reads_only_bind; [apply reads_only_lift|]. intros l.
  apply reads_only_bind; [apply reads_only_files_to_load|]. intros files.
  apply reads_only_bind; [|intros; apply reads_only_lift].
  apply reads_only_for_each. intros f. unfold load_profile.
  apply reads_only_bind; [apply reads_only_read_parquet|].
  intros df. simpl. destruct sf; [apply reads_only_lift | apply reads_only_ret].
Qed.

(** What a projection onto shared features returns: the names selected
    are the expansion of the metadata column names followed by the shared
    features. *)
Lemma project_expanded feats df t :
  project polars is_metadata_column (Some feats) df = Returned t ->
  exists E,
    expand polars df (fst (split df) ++ feats) = Returned E
    /\ columns t = E
    /\ NoDup E
    /\ Forall (fun c => In c (columns df)) E
    /\ Forall (fun s => In s df) t
    /\ Forall2 (fun c s => get_column df c = Some s) E t.
Proof.
  unfold project, select. intros H.
  destruct (expand polars df (fst (split df) ++ feats)) as [e|E] eqn:X;
    [discriminate|].
  simpl in H. exists E.
  destruct (select_from_returned _ _ _ _ _ H) as [Hc [Hnd [_ [Hin Hsub]]]].
  repeat split; auto. eapply select_from_lookup; eauto.
Qed.

Lemma metadata_columns_in df c :
  In c (fst (split df)) <-> In c (columns df) /\ is_metadata_column c = true.
Proof. unfold split_meta_and_features. cbn [fst]. apply filter_In. Qed.

(** When every name selected stands for itself, a projection that
    returns has the metadata columns followed by the shared features, and
    these are distinct feature columns of the table. *)
Lemma project_as_listed feats df t :
  project polars is_metadata_column (Some feats) df = Returned t ->
  expand polars df (fst (split df) ++ feats)
  = Returned (fst (split df) ++ feats) ->
  columns t = fst (split df) ++ feats
  /\ NoDup feats
  /\ Forall (fun c => In c (columns df) /\ is_metadata_column c = false) feats.
Proof.
  intros H X.
  destruct (project_expanded _ _ _ H) as [E [X' [Hc [Hnd [Hin _]]]]].
  rewrite X in X'. injection X' as <-.
  split; [assumption|]. split; [eapply NoDup_app_right; eauto|].
  rewrite Forall_forall in *. intros c Hcf.
  assert (Hcol : In c (columns df)) by (apply Hin, in_or_app; now right).
  split; [assumption|].
  destruct (is_metadata_column c) eqn:Mc; [exfalso|reflexivity].
  apply (NoDup_app_disjoint _ _ c Hnd); [|assumption].
  apply metadata_columns_in. auto.
Qed.

(** With plain shared features, a projection that returns kept every one
    of them: they are distinct feature columns of the table. *)
Lemma project_plain_features feats df t :
  Forall (fun n => plain_name n = true) feats ->
  project polars is_metadata_column (Some feats) df = Returned t ->
  exists M,
    expand polars df (fst (split df)) = Returned M
    /\ columns t = M ++ feats
    /\ NoDup feats
    /\ Forall (fun c => In c (columns df) /\ is_metadata_column c = false) feats.
Proof.
  intros Hplain H.
  destruct (project_expanded _ _ _ H) as [E [X [Hc [Hnd [Hin _]]]]].
  rewrite expand_app, (expand_plain polars df feats Hplain) in X.
  destruct (expand polars df (fst (split df))) as [e|M] eqn:XM;
    simpl in X; [discriminate|].
  injection X as <-. exists M. repeat split; auto.
  - eapply NoDup_app_right; eauto.
  - rewrite Forall_forall in *. intros c Hcf.
    assert (Hcol : In c (columns df)) by (apply Hin, in_or_app; now right).
    split; [assumption|].
    destruct (is_metadata_column c) eqn:Mc; [exfalso|reflexivity].
    apply (NoDup_app_disjoint _ _ c Hnd); [|assumption].
    apply (expand_in polars df _ _ c [c] XM).
    + apply metadata_columns_in. auto.
    + apply stands_for_plain. auto.
    + now left.
Qed.

(** With plain names throughout, a projection that returns has the
    metadata columns followed by the shared features. *)
Lemma project_returned feats df t :
  Forall (fun n => plain_name n = true) (fst (split df)) ->
  Forall (fun n => plain_name n = true) feats ->
  project polars is_metadata_column (Some feats) df = Returned t ->
  columns t = fst (split df) ++ feats
  /\ Forall (fun s => In s df) t
  /\ Forall (fun c => is_metadata_column c = false) feats
  /\ Forall (fun c => In c (columns df)) feats
  /\ NoDup feats.
Proof.
  intros Hm Hf H.
  destruct (project_expanded _ _ _ H) as [E [_ [_ [_ [_ [Hsub _]]]]]].
  destruct (project_plain_features _ _ _ Hf H) as [M [XM [Hc [Hnd Hall]]]].
  rewrite (expand_plain polars df _ Hm) in XM. injection XM as <-.
  repeat split; auto; rewrite Forall_forall in *; intros c Hc'; now apply Hall.
Qed.

(** Plain shared features that are feature columns of a table with plain
    metadata column names, each listed once, can always be projected. *)
Lemma project_total feats df :
  NoDup (columns df) ->
  NoDup feats ->
  Forall (fun n => plain_name n = true) (fst (split df)) ->
  Forall (fun n => plain_name n = true) feats ->
  Forall (fun c => In c (columns df) /\ is_metadata_column c = false) feats ->
  exists t,
    project polars is_metadata_column (Some feats) df = Returned t
    /\ columns t = fst (split df) ++ feats.
Proof.
  intros Hdf Hf Hpm Hpf Hall. unfold project, select.
  rewrite expand_plain by (apply Forall_app; auto). simpl.
  rewrite Forall_forall in Hall.
  destruct (select_from_total polars df (fst (split df) ++ feats) [])
    as [t Ht].
  - apply NoDup_app_intro; auto.
    + unfold split_meta_and_features. cbn [fst]. now apply NoDup_filter.
    + intros y Hy Hy'. apply metadata_columns_in in Hy as [_ Hy].
      destruct (Hall y Hy'). congruence.
  - rewrite Forall_forall. auto.
  - rewrite Forall_forall. intros c Hc. apply in_app_or in Hc as [Hc|Hc].
    + now apply metadata_columns_in in Hc.
    + now apply Hall.
  - exists t. split; [assumption|].
    now destruct (select_from_returned _ _ _ _ _ Ht).
Qed.

End LoadingFacts.

(* ===================================================================== *)
(** * More facts about the file system *)
(* ===================================================================== *)

Lemma walk_from_app : forall xs ys above n,
  walk_from above n (xs ++ ys)
  = match walk_from above n xs with
    | Some (above', n') => walk_from above' n' ys
    | None => None
    end.
Proof.
  induction xs as [|x xs IH]; intros ys above n; simpl; [reflexivity|].
  destruct n as [t|entries ds]; [reflexivity|].
  destruct (String.eqb x "..").
  - destruct above; apply IH.
  - destruct (String.eqb x "."); [apply IH|].
    destruct (assoc x entries); [apply IH | reflexivity].
Qed.

Lemma assoc_in {A} k (l : list (string * A)) :
  In k (map fst l) -> assoc k l <> None.
Proof.
  induction l as [|[k' v] l IH]; simpl; [contradiction|].
  intros [->|Hin].
  - now rewrite String.eqb_refl.
  - destruct (String.eqb k k'); [discriminate | auto].
Qed.

(** The names a directory lists: its entries, none of them twice. *)
Lemma entry_names_in {A} (l : list (string * A)) : forall seen k,
  In k (entry_names seen l) <-> In k (map fst l) /\ ~ In k seen.
Proof.
  induction l as [|[k' v] l IH]; intros seen k; simpl; [tauto|].
  destruct (Text.mem k' seen) eqn:M.
  - apply mem_In in M. rewrite IH. split.
    + intros [H1 H2]. auto.
    + intros [[<-|H1] H2]; [contradiction | auto].
  - apply mem_false in M. simpl. rewrite IH. simpl. split.
    + intros [<-|[H1 H2]]; auto.
    + intros [[<-|H1] H2]; [now left|].
      destruct (string_dec k' k) as [<-|Hne]; [now left | right].
      split; [assumption|]. intros [E|Hs]; auto.
Qed.

Lemma entry_names_NoDup {A} (l : list (string * A)) : forall seen,
  NoDup (entry_names seen l).
Proof.
  induction l as [|[k v] l IH]; intros seen; simpl; [constructor|].
  destruct (Text.mem k seen); [apply IH|].
  constructor; [|apply IH].
  rewrite entry_names_in. intros [_ H]. apply H. now left.
Qed.

Lemma child_injective d a b : Pathlib.child d a = Pathlib.child d b -> a = b.
Proof.
  unfold Pathlib.child. intros [= H]. apply app_inv_head in H. congruence.
Qed.

Lemma NoDup_map_injective {A B} (f : A -> B) l :
  (forall a b, f a = f b -> a = b) -> NoDup l -> NoDup (map f l).
Proof.
  intros Hf. induction 1 as [|x l Hx Hl IH]; simpl; constructor; [|assumption].
  intros Hin. apply in_map_iff in Hin as [y [E Hy]]. apply Hf in E. now subst.
Qed.

(** An entry of a directory is reached by its name, the two names that
    lead elsewhere apart. *)
Lemma resolve_child w d k entries ds :
  resolve w d = Some (Dir entries ds) ->
  k <> ".." -> k <> "." ->
  resolve w (Pathlib.child d k) = assoc k entries.
Proof.
  unfold resolve, walk, Pathlib.child. simpl. intros H Hk1 Hk2.
  apply String.eqb_neq in Hk1, Hk2.
  assert (W : forall cs,
             option_map snd (walk_from [] (root w) cs) = Some (Dir entries ds) ->
             option_map snd (walk_from [] (root w) (cs ++ [k]))
             = assoc k entries).
  { intros cs Hcs. rewrite walk_from_app.
    destruct (walk_from [] (root w) cs) as [[above n]|]; [|discriminate].
    simpl in Hcs. injection Hcs as ->. simpl. rewrite Hk1, Hk2.
    now destruct (assoc k entries). }
  destruct (anchor d); [rewrite app_assoc| |]; now apply W.
Qed.

(** What discovery finds: existing entries directly under the directory,
    with the suffix asked for. *)
Lemma matching_files_in w d suffix p :
  Text.ends_with suffix ".." = false ->
  Text.ends_with suffix "." = false ->
  In p (matching_files w d suffix) ->
  exists k entries ds,
    resolve w d = Some (Dir entries ds)
    /\ p = Pathlib.child d k
    /\ In k (map fst entries)
    /\ Text.ends_with suffix k = true
    /\ resolve w p <> None.
Proof.
  intros S2 S1. unfold matching_files.
  destruct (resolve w d) as [[t|entries ds]|] eqn:R; try contradiction.
  intros Hin. apply in_map_iff in Hin as [k [<- Hk]].
  apply filter_In in Hk as [Hk Hs]. apply entry_names_in in Hk as [Hk _].
  exists k, entries, ds. repeat split; auto.
  rewrite (resolve_child _ _ _ _ _ R); [now apply assoc_in| |];
    intros ->; congruence.
Qed.

(** ... all of them ... *)
Lemma matching_files_complete w d suffix k entries ds :
  resolve w d = Some (Dir entries ds) ->
  In k (map fst entries) ->
  Text.ends_with suffix k = true ->
  In (Pathlib.child d k) (matching_files w d suffix).
Proof.
  intros R Hk Hs. unfold matching_files. rewrite R.
  apply in_map, filter_In. split; [|assumption].
  apply entry_names_in. auto.
Qed.

(** ... each once. *)
Lemma matching_files_NoDup w d suffix : NoDup (matching_files w d suffix).
Proof.
  unfold matching_files.
  destruct (resolve w d) as [[t|entries ds]|]; try constructor.
  apply NoDup_map_injective; [apply child_injective|].
  apply NoDup_filter, entry_names_NoDup.
Qed.

(* ===================================================================== *)
(** * More facts about the choice of the files *)
(* ===================================================================== *)

Lemma choose_files_explicit w dir d l :
  coerce_dir dir = Returned d ->
  Forall (present w) l ->
  choose_files dir (PyList (map PyPath l)) w
  = (extend w (map EvExists l), Returned l).
Proof.
  intros Hd Hl. unfold choose_files, bind, lift. rewrite Hd.
  unfold check_specific_plates. rewrite forallb_is_path_paths, as_paths_paths.
  simpl. unfold bind. now rewrite check_plates_exist_all.
Qed.

Lemma choose_files_discovery w dir d :
  coerce_dir dir = Returned d ->
  matching_files w d ".parquet" <> [] ->
  choose_files dir PyNone w
  = (extend w [EvGlob d "*.parquet"], Returned (matching_files w d ".parquet")).
Proof.
  intros Hd Hne. unfold choose_files, bind, lift. rewrite Hd. simpl. step.
  destruct (matching_files w d ".parquet"); [congruence | reflexivity].
Qed.

(** Either every path of a list exists, or one of them is missing. *)
Lemma classic_missing w l :
  Forall (present w) l \/ (exists p, In p l /\ resolve w p = None).
Proof.
  induction l as [|q l [IH|[p [Hin Hp]]]].
  - left. constructor.
  - destruct (resolve w q) eqn:E.
    + left. constructor; [unfold present; congruence | assumption].
    + right. exists q. simpl; auto.
  - right. exists p. simpl; auto.
Qed.


(** The file choice raises for one of three reasons. *)
Lemma chosen_files_raised w dir plates e :
  chosen_files w dir plates = Raised e ->
  (exc_type e = TypeError
   /\ (coerce_dir dir = Raised e
       \/ check_specific_plates plates = Raised e))
  \/ (exists l p, check_specific_plates plates = Returned (Some l)
                  /\ In p l /\ resolve w p = None /\ e = profile_not_found p)
  \/ (exists d, coerce_dir dir = Returned d /\ plates = PyNone
                /\ matching_files w d ".parquet" = []
                /\ e = no_profiles_found d).
Proof.
  unfold chosen_files, choose_files, bind, lift.
  destruct (coerce_dir dir) as [e0|d] eqn:Hd; simpl.
  - intros [= <-]. left. split; [|now left].
    destruct dir; simpl in Hd; try discriminate; now injection Hd as <-.
  - destruct (check_specific_plates plates) as [e0|[l|]] eqn:Hp; simpl.
    + intros [= <-]. left. split; [|now right].
      destruct plates; simpl in Hp; try discriminate;
        try (now injection Hp as <-).
      destruct (negb (forallb is_path items)); [now injection Hp as <- | discriminate].
    + unfold bind, ret. intros H. right. left.
      destruct (classic_missing w l) as [Hall|Hmiss].
      * rewrite (check_plates_exist_all l w Hall) in H. discriminate.
      * destruct (first_missing w l Hmiss) as [pre [p [post [-> [Hpre Hpm]]]]].
        rewrite (check_plates_exist_missing pre p post w Hpre Hpm) in H.
        simpl in H. injection H as <-. exists (pre ++ p :: post), p.
        repeat split; auto. apply in_or_app. simpl; auto.
    + step. intros H. right. right. exists d.
      destruct plates; simpl in Hp; try discriminate.
      * destruct (matching_files w d ".parquet") eqn:M; [|discriminate].
        injection H as <-. auto.
      * destruct (negb (forallb is_path items)); discriminate.
Qed.

(* ===================================================================== *)
(** * More facts about frames *)
(* ===================================================================== *)

(** Stacking puts the rows of the second frame under those of the first. *)
Lemma vstack_stacks acc other out :
  vstack acc other = Returned out ->
  height out = height acc + height other
  /\ forall c, column_values c out = column_values c acc ++ column_values c other.
Proof.
  unfold vstack. destruct (width acc =? width other)%nat eqn:W; simpl.
  - apply Nat.eqb_eq in W. intros H. split.
    + now destruct (append_columns_returned _ _ _ W H) as [_ [_ Hh]].
    + now apply append_columns_values.
  - destruct acc; [|discriminate]. intros [= <-]. auto.
Qed.

Lemma vstack_all_stacks : forall items acc out,
  vstack_all acc items = Returned out ->
  height out = height acc + list_sum (map height items)
  /\ forall c,
       column_values c out
       = column_values c acc ++ flat_map (column_values c) items.
Proof.
  induction items as [|df items IH]; intros acc out H; simpl in H.
  - injection H as <-. simpl. split; [lia|]. intros c. now rewrite app_nil_r.
  - destruct (vstack acc df) as [e|acc'] eqn:V; simpl in H; [discriminate|].
    destruct (vstack_stacks _ _ _ V) as [Hh Hv].
    destruct (IH _ _ H) as [Hh' Hv']. simpl. split; [lia|].
    intros c. now rewrite Hv', Hv, app_assoc.
Qed.

Lemma concat_stacks tables out :
  concat tables = Returned out ->
  tables <> []
  /\ height out = list_sum (map height tables)
  /\ forall c, column_values c out = flat_map (column_values c) tables.
Proof.
  destruct tables as [|first rest]; [discriminate|]. simpl. intros H.
  destruct (vstack_all_stacks _ _ _ H) as [Hh Hv].
  split; [discriminate|]. auto.
Qed.

Lemma concat_same_schema sch tables :
  tables <> [] ->
  Forall (fun t => schema t = sch) tables ->
  exists out, concat tables = Returned out /\ schema out = sch.
Proof.
  destruct tables as [|first rest]; [congruence|]. intros _ F.
  inversion F as [|? ? S1 Srest]; subst. simpl.
  destruct (vstack_all_same_schema (schema first) rest first eq_refl Srest)
    as [out [V [So _]]].
  eauto.
Qed.






Lemma lookup_selected df : forall names out c,
  Forall2 (fun c s => get_column df c = Some s) names out ->
  In c names ->
  get_column out c = get_column df c.
Proof.
  induction 1 as [|n s names out Hn F IH]; simpl; [contradiction|].
  destruct (get_column_some _ _ _ Hn) as [_ Hname]. rewrite Hname.
  destruct (String.eqb c n) eqn:E.
  - apply String.eqb_eq in E. subst. now rewrite Hn.
  - apply String.eqb_neq in E. intros [->|Hin]; [congruence | auto].
Qed.

Lemma lookup_not_selected df : forall names out c,
  Forall2 (fun c s => get_column df c = Some s) names out ->
  ~ In c names ->
  get_column out c = None.
Proof.
  induction 1 as [|n s names out Hn F IH]; simpl; [reflexivity|].
  destruct (get_column_some _ _ _ Hn) as [_ Hname]. rewrite Hname.
  intros Hc. destruct (String.eqb c n) eqn:E.
  - apply String.eqb_eq in E. subst. exfalso. auto.
  - apply IH. auto.
Qed.

(** In a frame with unique column names, a column is found with the type
    its schema gives. *)
Lemma get_column_schema : forall df c ty,
  NoDup (columns df) ->
  In (c, ty) (schema df) ->
  exists s, get_column df c = Some s /\ name s = c /\ dtype s = ty.
Proof.
  induction df as [|s0 df IH]; intros c ty Hnd Hin; simpl in *; [contradiction|].
  inversion Hnd as [|? ? Hn Hnd']; subst.
  destruct Hin as [[= <- <-]|Hin].
  - rewrite String.eqb_refl. eauto.
  - destruct (String.eqb c (name s0)) eqn:E; [|auto].
    apply String.eqb_eq in E. subst. exfalso. apply Hn.
    unfold columns, schema in *. apply in_map_iff in Hin as [s [[= E1 E2] Hs]].
    rewrite <- E1. now apply in_map.
Qed.

Lemma lookup_schema df : forall sel out,
  NoDup (columns df) ->
  Forall (fun cd => In cd (schema df)) sel ->
  Forall2 (fun c s => get_column df c = Some s) (map fst sel) out ->
  schema out = sel.
Proof.
  induction sel as [|[c ty] sel IH]; intros out Hnd Hsel F; simpl in F;
    inversion F; subst; [reflexivity|].
  inversion Hsel as [|? ? Hc Hrest]; subst.
  destruct (get_column_schema _ _ _ Hnd Hc) as [s [G [Hn Hd]]].
  match goal with H : get_column df c = Some _ |- _ =>
    rewrite G in H; injection H as <- end.
  unfold schema in *. simpl. rewrite Hn, Hd. f_equal. now apply IH.
Qed.

Lemma filter_map_fst {A B} (f : A -> bool) (l : list (A * B)) :
  filter f (map fst l) = map fst (filter (fun x => f (fst x)) l).
Proof.
  induction l as [|[a b] l IH]; simpl; [reflexivity|].
  destruct (f a); simpl; now rewrite IH.
Qed.

Lemma columns_schema df : columns df = map fst (schema df).
Proof. unfold columns, schema. now rewrite map_map. Qed.

Lemma height_of_column_values df c :
  Forall (fun s => List.length (values s) = height df) df ->
  In c (columns df) ->
  List.length (column_values c df) = height df.
Proof.
  intros Hall Hin. unfold column_values.
  destruct (get_column df c) as [s|] eqn:G.
  - destruct (get_column_some _ _ _ G) as [Hs _].
    rewrite Forall_forall in Hall. now apply Hall.
  - apply get_column_none in G. contradiction.
Qed.

(* ===================================================================== *)
(** * More facts about loading *)
(* ===================================================================== *)

Lemma reads_only_result {A} (m : M A) w1 w2 :
  reads_only m -> root w1 = root w2 -> cwd w1 = cwd w2 ->
  snd (m w1) = snd (m w2).
Proof.
  intros Hm Hr Hc. destruct w1 as [r1 c1 t1], w2 as [r2 c2 t2]. simpl in *. subst.
  destruct (Hm r2 c2) as [evs [r E]]. now rewrite (E t1), (E t2).
Qed.

Lemma firstn_map {A B} (f : A -> B) k l : firstn k (map f l) = map f (firstn k l).
Proof.
  revert l. induction k as [|k IH]; intros [|x l]; simpl; try reflexivity.
  now rewrite IH.
Qed.

Lemma in_firstn {A} k (l : list A) x : In x (firstn k l) -> In x l.
Proof.
  intros H. rewrite <- (firstn_skipn k l). apply in_or_app. now left.
Qed.

Lemma firstn_through {A} (pre : list A) f post :
  firstn (S (List.length pre)) (pre ++ f :: post) = pre ++ [f].
Proof.
  replace (S (List.length pre)) with (List.length pre + 1) by lia.
  now rewrite firstn_app_2.
Qed.




Section MoreLoadingFacts.

Variable polars : Polars.
Variable is_metadata_column : string -> bool.

Local Abbreviation split := (split_meta_and_features is_metadata_column).
Local Abbreviation table_of := (loaded_table polars is_metadata_column).
Local Abbreviation load_one := (load_profile polars is_metadata_column).
Local Abbreviation loader := (load_and_concat_profiles polars is_metadata_column).

Lemma reads_only_load_profile sf f : reads_only (load_one sf f).
Proof.
  unfold load_profile.
  apply reads_only_bind; [apply reads_only_read_parquet|].
  intros df. simpl. destruct sf; [apply reads_only_lift | apply reads_only_ret].
Qed.

(** A loading that raises stopped at one file, after its predecessors. *)
Lemma for_each_load_raised sf : forall files w w' e,
  for_each (load_one sf) files w = (w', Raised e) ->
  exists pre f post tables,
    files = pre ++ f :: post
    /\ Forall2 (fun g t => table_of w sf g = Returned t) pre tables
    /\ table_of w sf f = Raised e
    /\ w' = extend w (map EvRead (pre ++ [f])).
Proof.
  induction files as [|g files IH]; intros w w' e H; simpl in H.
  - discriminate.
  - unfold bind at 1 in H. rewrite load_profile_run in H.
    destruct (table_of w sf g) as [e0|t] eqn:T.
    + injection H as <- <-. exists [], g, files, []. repeat split; auto.
    + unfold bind at 1 in H.
      destruct (for_each (load_one sf) files (extend w [EvRead g]))
        as [w2 [e2|ts]] eqn:E; [|discriminate].
      injection H as <- <-.
      destruct (IH _ _ _ E) as [pre [f [post [tables [-> [F [Hf ->]]]]]]].
      exists (g :: pre), f, post, (t :: tables). repeat split; auto.
      rewrite extend_extend. reflexivity.
Qed.

(** The files read are a front part of the list: all of it on success. *)
Lemma for_each_load_prefix sf : forall files w,
  exists k,
    k <= List.length files
    /\ fst (for_each (load_one sf) files w) = extend w (map EvRead (firstn k files))
    /\ (is_returned (snd (for_each (load_one sf) files w)) = true ->
        k = List.length files).
Proof.
  intros files w.
  destruct (for_each (load_one sf) files w) as [w' [e|ts]] eqn:E.
  - destruct (for_each_load_raised _ _ _ _ _ E)
      as [pre [f [post [tables [-> [_ [_ ->]]]]]]].
    exists (S (List.length pre)). repeat split.
    + rewrite length_app. simpl. lia.
    + cbn [fst]. now rewrite firstn_through.
    + discriminate.
  - destruct (for_each_load_returned _ _ _ _ _ _ _ E) as [_ ->].
    exists (List.length files). repeat split; auto.
    now rewrite firstn_all.
Qed.

(** Every failure of the loader, by the stage it comes from. *)
Lemma loader_raised dir sf plates w w' e :
  loader dir sf plates w = (w', Raised e) ->
  (exc_type e = TypeError /\ w' = w
   /\ (coerce_dir dir = Raised e \/ check_specific_plates plates = Raised e))
  \/ (exc_type e = FileNotFoundError
      /\ chosen_files w dir plates = Raised e
      /\ reads (trace w') = reads (trace w))
  \/ (exists pre f post tables,
        chosen_files w dir plates = Returned (pre ++ f :: post)
        /\ Forall2 (fun g t => table_of w sf g = Returned t) pre tables
        /\ table_of w sf f = Raised e
        /\ reads (trace w') = reads (trace w) ++ pre ++ [f])
  \/ (exists files tables,
        chosen_files w dir plates = Returned files
        /\ Forall2 (fun f t => table_of w sf f = Returned t) files tables
        /\ concat tables = Raised e
        /\ reads (trace w') = reads (trace w) ++ files).
Proof.
  intros H.
  destruct (chosen_files w dir plates) as [e0|files] eqn:C.
  - destruct (loader_stopped polars is_metadata_column dir sf plates w e0 C)
      as [w1 [E R]].
    rewrite E in H. injection H as <- <-.
    destruct (chosen_files_raised _ _ _ _ C)
      as [[Ht Hty]|[[l [p [_ [_ [_ ->]]]]]|[d [_ [_ [_ ->]]]]]].
    + left. split; [assumption|]. split; [|assumption].
      rewrite loader_stages in E. unfold choose_files, bind, lift in E.
      destruct Hty as [Hd|Hp].
      * rewrite Hd in E. now injection E as <-.
      * destruct (coerce_dir dir) as [e1|d]; [now injection E as <- _|].
        rewrite Hp in E. now injection E as <-.
    + right. left. auto.
    + right. left. auto.
  - rewrite loader_stages in H.
    destruct (choose_files_trace dir plates w) as [evs [E R]].
    rewrite E, C in H.
    destruct (for_each (load_profile polars is_metadata_column sf) files (extend w evs))
      as [w2 [e2|ts]] eqn:L.
    + injection H as <- <-.
      destruct (for_each_load_raised _ _ _ _ _ L)
        as [pre [f [post [tables [-> [F [Hf ->]]]]]]].
      right. right. left. exists pre, f, post, tables. repeat split; auto.
      simpl. now rewrite !reads_app, R, reads_read_events, app_nil_r.
    + injection H as <- Hc.
      destruct (for_each_load_returned _ _ _ _ _ _ _ L) as [F ->].
      right. right. right. exists files, ts. repeat split; auto.
      simpl. now rewrite !reads_app, R, reads_read_events, app_nil_r.
Qed.

(** What a projection does to the cells. *)
Lemma project_cells feats df t :
  project polars is_metadata_column (Some feats) df = Returned t ->
  (forall c, In c (columns t) -> column_values c t = column_values c df)
  /\ (forall c, ~ In c (columns t) -> column_values c t = []).
Proof.
  intros H.
  destruct (project_expanded _ _ _ _ _ H) as [E [_ [Hc [_ [_ [_ L]]]]]].
  rewrite Hc. unfold column_values. split; intros c Hin.
  - now rewrite (lookup_selected _ _ _ _ L Hin).
  - now rewrite (lookup_not_selected _ _ _ _ L Hin).
Qed.

(** Projecting a table onto shared features it has, with the metadata
    schema [meta_sch]. *)
Lemma project_shared meta_sch feat_sch df :
  NoDup (columns df) ->
  Forall (fun n => plain_name n = true) (map fst meta_sch) ->
  Forall (fun n => plain_name n = true) (map fst feat_sch) ->
  filter (fun cd => is_metadata_column (fst cd)) (schema df) = meta_sch ->
  Forall (fun cd => In cd (schema df) /\ is_metadata_column (fst cd) = false)
    feat_sch ->
  NoDup (map fst feat_sch) ->
  exists t,
    project polars is_metadata_column (Some (map fst feat_sch)) df = Returned t
    /\ schema t = meta_sch ++ feat_sch
    /\ forall c, In c (map fst (meta_sch ++ feat_sch)) ->
                 column_values c t = column_values c df.
Proof.
  intros Hnd Hpm Hpf Hmeta Hfeat Hndf.
  assert (Hnames : fst (split df) = map fst meta_sch).
  { unfold split_meta_and_features. cbn [fst].
    now rewrite columns_schema, filter_map_fst, Hmeta. }
  destruct (project_total polars is_metadata_column (map fst feat_sch) df Hnd Hndf)
    as [t [Hp Hc]]; [now rewrite Hnames | assumption | |].
  { rewrite Forall_forall in *. intros c Hin.
    apply in_map_iff in Hin as [[c' ty] [<- Hin]].
    destruct (Hfeat _ Hin) as [Hs Hm]. split; [|assumption].
    rewrite columns_schema. now apply (in_map fst) in Hs. }
  exists t. split; [assumption|].
  destruct (project_expanded _ _ _ _ _ Hp) as [E [_ [HE [_ [_ [_ L]]]]]].
  rewrite <- HE, Hc, Hnames, <- map_app in L. split.
  - apply (lookup_schema df); auto.
    apply Forall_app. split.
    + rewrite Forall_forall. intros cd Hin. rewrite <- Hmeta in Hin.
      now apply filter_In in Hin.
    + eapply Forall_impl; [|exact Hfeat]. now intros cd [].
  - intros c Hin. unfold column_values.
    now rewrite (lookup_selected _ _ _ _ L Hin).
Qed.

(** Loading depends on the files loaded alone. *)
Lemma for_each_load_agree sf : forall files w1 w2,
  (forall f, In f files -> parquet_at w1 f = parquet_at w2 f) ->
  snd (for_each (load_one sf) files w1) = snd (for_each (load_one sf) files w2).
Proof.
  induction files as [|f files IH]; intros w1 w2 H; simpl; [reflexivity|].
  unfold bind at 1 3. rewrite !load_profile_run. unfold loaded_table.
  rewrite (H f) by now left.
  destruct (rbind (parquet_at w2 f) (project polars is_metadata_column sf))
    as [e|t]; [reflexivity|].
  unfold bind.
  assert (A : snd (for_each (load_one sf) files (extend w1 [EvRead f]))
              = snd (for_each (load_one sf) files (extend w2 [EvRead f]))).
  { apply IH. intros g Hg. rewrite !parquet_at_extend. apply H. now right. }
  destruct (for_each (load_one sf) files (extend w1 [EvRead f])) as [x1 [a1|t1]];
    destruct (for_each (load_one sf) files (extend w2 [EvRead f]))
      as [x2 [a2|t2]];
    simpl in A |- *; unfold ret; simpl; congruence.
Qed.

End MoreLoadingFacts.

(* ===================================================================== *)
(** * Properties of [load_and_concat_profiles] *)
(* ===================================================================== *)

Section Properties.

Variable polars : Polars.
Variable is_metadata_column : string -> bool.

(** C1 (as amended).  When [shared_features] is supplied and the call
    returns, every loaded table holds columns of its file, named by what
    polars makes of the file's metadata column names followed by the
    shared features.  When for every chosen file each of these names
    stands for itself -- as plain names do, those that are not ["*"] and
    not of the form [^...$] -- these are the metadata columns followed by
    the shared features in the given order, and the feature columns of
    the returned table are exactly the supplied list, after the metadata
    columns. *)
Theorem shared_features_projection :
  forall w dir feats plates w' out,
    load_and_concat_profiles polars is_metadata_column dir (Some feats) plates w
    = (w', Returned out) ->
    exists files tables,
      chosen_files w dir plates = Returned files
      /\ reads (trace w') = reads (trace w) ++ files
      /\ Forall2 (fun f t =>
                    exists df,
                      parquet_at w f = Returned df
                      /\ expand polars df
                           (fst (split_meta_and_features is_metadata_column df)
                              ++ feats)
                         = Returned (columns t)
                      /\ Forall (fun s => In s df) t) files tables
      /\ concat tables = Returned out
      /\ (Forall (fun f =>
                    forall df,
                      parquet_at w f = Returned df ->
                      expand polars df
                        (fst (split_meta_and_features is_metadata_column df)
                           ++ feats)
                      = Returned
                          (fst (split_meta_and_features is_metadata_column df)
                             ++ feats))
            files ->
          Forall2 (fun f t =>
                     exists df,
                       parquet_at w f = Returned df
                       /\ columns t
                          = fst (split_meta_and_features is_metadata_column df)
                              ++ feats) files tables
          /\ snd (split_meta_and_features is_metadata_column out) = feats
          /\ exists meta,
               columns out = meta ++ feats
               /\ Forall (fun c => is_metadata_column c = true) meta).
Proof.
  intros w dir feats plates w' out H.
  destruct (loader_returned _ _ _ _ _ _ _ _ H)
    as [files [tables [Hc [F [C R]]]]].
  assert (P : Forall2 (fun f t =>
                exists df, parquet_at w f = Returned df
                  /\ project polars is_metadata_column (Some feats) df = Returned t)
              files tables).
  { eapply Forall2_impl; [|exact F]. intros f t Ht. unfold loaded_table in Ht.
    destruct (parquet_at w f) as [e|df]; [discriminate|]. exists df. auto. }
  exists files, tables.
  split; [assumption|]. split; [assumption|]. split; [|split; [assumption|]].
  - eapply Forall2_impl; [|exact P]. intros f t [df [Hdf Hp]].
    destruct (project_expanded _ _ _ _ _ Hp) as [E [X [<- [_ [_ [Hsub _]]]]]].
    exists df. auto.
  - intros Hpm.
    assert (Q : forall t, In t tables ->
              exists df, columns t
                         = fst (split_meta_and_features is_metadata_column df)
                             ++ feats
                         /\ Forall (fun c => is_metadata_column c = false) feats).
    { intros t Hin.
      destruct (Forall2_in_right _ _ _ _ P Hin) as [f [Hf [df [Hdf Hp]]]].
      rewrite Forall_forall in Hpm.
      destruct (project_as_listed _ _ _ _ _ Hp (Hpm f Hf df Hdf))
        as [Hcols [_ Hfeat]].
      exists df. split; [assumption|].
      eapply Forall_impl; [|exact Hfeat]. now intros c []. }
    destruct tables as [|first rest]; [discriminate|]. simpl in C.
    destruct (vstack_all_columns _ _ _ C) as [t [Hin Ht]].
    destruct (Q t Hin) as [df [Hcols Hfeat]].
    split; [|split].
    + eapply Forall2_Forall_left; [exact P | exact Hpm |].
      intros f t' [df' [Hdf' Hp']] Hself. exists df'. split; [assumption|].
      now destruct (project_as_listed _ _ _ _ _ Hp' (Hself df' Hdf')).
    + unfold split_meta_and_features. cbn [snd]. rewrite Ht, Hcols.
      unfold split_meta_and_features. cbn [fst]. rewrite filter_app.
      rewrite filter_none, filter_all; [reflexivity | |].
      * eapply Forall_impl; [|exact Hfeat]. intros c ->. reflexivity.
      * rewrite Forall_forall. intros c Hm. apply filter_In in Hm as [_ ->].
        reflexivity.
    + exists (fst (split_meta_and_features is_metadata_column df)).
      split; [congruence|].
      unfold split_meta_and_features. cbn [fst]. rewrite Forall_forall.
      intros c Hm. now apply filter_In in Hm.
Qed.

(** C2.  With an explicit list of plate paths of which at least one does
    not exist, the call raises [FileNotFoundError] with the message
    "Profile file not found: <path>" for a missing path of the list (the
    first one), after existence checks only: no file has been read. *)
Theorem missing_explicit_file_fails_first :
  forall w dir sf plates,
    is_returned (coerce_dir dir) = true ->
    (exists p, In p plates /\ resolve w p = None) ->
    exists missing w',
      In missing plates /\ resolve w missing = None
      /\ load_and_concat_profiles polars is_metadata_column dir sf
           (PyList (map PyPath plates)) w
         = (w', Raised (profile_not_found missing))
      /\ exc_type (profile_not_found missing) = FileNotFoundError
      /\ names_text (profile_not_found missing) (Pathlib.str missing) = true
      /\ reads (trace w') = reads (trace w)
      /\ root w' = root w.
Proof.
  intros w dir sf plates Hdir Hmiss.
  destruct (first_missing w plates Hmiss) as [pre [p [post [-> [Hpre Hp]]]]].
  exists p, (extend w (map EvExists (pre ++ [p]))).
  repeat split; auto.
  - apply in_or_app. simpl; auto.
  - rewrite loader_stages. unfold choose_files, bind, lift.
    destruct (coerce_dir dir) as [e|d]; [discriminate|].
    unfold check_specific_plates.
    rewrite forallb_is_path_paths, as_paths_paths. simpl.
    unfold bind. now rewrite check_plates_exist_missing.
  - apply contains_tail.
  - simpl. now rewrite reads_app, reads_exists_events, app_nil_r.
Qed.

(** C3 (as amended).  When [shared_features] is supplied, the files
    before [f] load, [f] is a readable table, and the first name that
    polars selects for [f] and cannot serve -- missing from the table or
    selected before -- is a missing one, [c]: then [c] is a shared
    feature, a plain name, that [f] lacks and the call raises polars'
    [ColumnNotFoundError] at the projection of [f], with no file after
    [f] read.  The message names the missing column; the exception
    depends on the table alone, so it does not identify the file. *)
Theorem missing_shared_feature_fails :
  forall w dir feats plates pre f post tables df before c after,
    chosen_files w dir plates = Returned (pre ++ f :: post) ->
    Forall2 (fun g t =>
               loaded_table polars is_metadata_column w (Some feats) g = Returned t)
      pre tables ->
    parquet_at w f = Returned df ->
    expand polars df
      (fst (split_meta_and_features is_metadata_column df) ++ feats)
    = Returned (before ++ c :: after) ->
    NoDup before ->
    Forall (fun x => In x (columns df)) before ->
    ~ In c (columns df) ->
    In c feats
    /\ plain_name c = true
    /\ (exists w',
          load_and_concat_profiles polars is_metadata_column dir (Some feats)
            plates w
          = (w', Raised (column_not_found polars c df))
          /\ reads (trace w') = reads (trace w) ++ pre ++ [f])
    /\ exc_type (column_not_found polars c df) = ColumnNotFoundError
    /\ names_text (column_not_found polars c df) c = true
    /\ (forall w2 f2,
          parquet_at w2 f2 = Returned df ->
          loaded_table polars is_metadata_column w2 (Some feats) f2
          = Raised (column_not_found polars c df)).
Proof.
  intros w dir feats plates pre f post tables df before c after
         Hc F Hdf HE Hnd Hin Hmiss.
  assert (Hcf : In c feats /\ plain_name c = true).
  { destruct (expand_origin polars df _ _ c HE) as [H|[Hp H]].
    - apply in_or_app. right. now left.
    - contradiction.
    - split; [|assumption].
      apply in_app_or in H as [H|H]; [|assumption].
      apply metadata_columns_in in H as [H _]. contradiction. }
  assert (T : forall w2 f2,
             parquet_at w2 f2 = Returned df ->
             loaded_table polars is_metadata_column w2 (Some feats) f2
             = Raised (column_not_found polars c df)).
  { intros w2 f2 H2. unfold loaded_table. rewrite H2.
    unfold rbind, project, select. rewrite HE.
    apply select_from_first_missing; auto. rewrite Forall_forall. auto. }
  destruct (loader_stops_at polars is_metadata_column _ _ _ _ _ _ _ _ _
              Hc F (T w f Hdf))
    as [w' [E R]].
  split; [apply Hcf|]. split; [apply Hcf|]. split; [now exists w'|].
  split; [reflexivity|]. split; [apply column_not_found_names | exact T].
Qed.

(** C4.  Discovery in a directory whose matching files are all readable
    tables of one schema, without a shared-feature filter: the call
    returns a table with that schema (hence those columns) whose height
    is the sum of the heights of the tables, each column holding the cells
    of the tables in discovery order, having read exactly the discovered
    files. *)
Theorem discovery_stacks_all_rows :
  forall w dir d files tables sch,
    coerce_dir dir = Returned d ->
    matching_files w d ".parquet" = files ->
    files <> [] ->
    Forall2 (fun f t => parquet_at w f = Returned t) files tables ->
    Forall (fun t => schema t = sch) tables ->
    exists out w',
      load_and_concat_profiles polars is_metadata_column dir None PyNone w = (w', Returned out)
      /\ height out = list_sum (map height tables)
      /\ schema out = sch
      /\ columns out = map fst sch
      /\ (forall c, column_values c out = flat_map (column_values c) tables)
      /\ reads (trace w') = reads (trace w) ++ files.
Proof.
  intros w dir d files tables sch Hd Hm Hne F S.
  assert (Hc : chosen_files w dir PyNone = Returned files).
  { unfold chosen_files, choose_files, bind, lift. rewrite Hd. simpl. step.
    rewrite Hm. destruct files; [congruence | reflexivity]. }
  assert (F' : Forall2 (fun f t =>
                          loaded_table polars is_metadata_column w None f = Returned t)
                 files tables).
  { eapply Forall2_impl; [|exact F]. intros f t Ht. unfold loaded_table.
    now rewrite Ht. }
  destruct (loader_loaded polars is_metadata_column _ _ _ _ _ _ Hc F') as [w' [E R]].
  destruct tables as [|first rest].
  { inversion F; subst. congruence. }
  inversion S as [|? ? S1 Srest]; subst.
  destruct (vstack_all_same_schema (schema first) rest first eq_refl Srest)
    as [out [V [So [Hh Hv]]]].
  exists out, w'. simpl in E. rewrite V in E. repeat split; auto.
  unfold columns, schema in *. rewrite <- So, map_map. reflexivity.
Qed.


(** C6.  Without an explicit list, when discovery finds no matching file
    under [profile_dir] -- in particular when that directory does not
    exist or is empty -- the call raises [FileNotFoundError] with the
    message "No profile files found in <profile_dir>", having done
    nothing but the discovery. *)
Theorem empty_discovery_fails :
  forall w dir d sf,
    coerce_dir dir = Returned d ->
    resolve w d = None \/ (exists r, resolve w d = Some (Dir [] r))
    \/ matching_files w d ".parquet" = [] ->
    load_and_concat_profiles polars is_metadata_column dir sf PyNone w
    = (extend w [EvGlob d "*.parquet"], Raised (no_profiles_found d))
    /\ exc_type (no_profiles_found d) = FileNotFoundError
    /\ names_text (no_profiles_found d) (Pathlib.str d) = true.
Proof.
  intros w dir d sf Hd H.
  assert (Hm : matching_files w d ".parquet" = []).
  { unfold matching_files. destruct H as [->|[[r ->]|H]]; auto. }
  repeat split.
  - rewrite loader_stages. unfold choose_files, bind, lift. rewrite Hd. simpl.
    step. now rewrite Hm.
  - apply contains_tail.
Qed.


(** C8.  An empty explicit list: no discovery is made and nothing is
    probed or read; the call reaches [pl.concat] with no table and raises
    its [ValueError], so no table is returned. *)
Theorem empty_explicit_list_fails_at_concat :
  forall w dir sf,
    is_returned (coerce_dir dir) = true ->
    load_and_concat_profiles polars is_metadata_column dir sf (PyList []) w
    = (w, Raised (mkExc ValueError "cannot concat empty list")).
Proof.
  intros w dir sf Hd. unfold load_and_concat_profiles, bind, lift.
  destruct (coerce_dir dir) as [e|d]; [discriminate | reflexivity].
Qed.

(** C9.  With [specific_plates] supplied, two calls that differ only in
    [profile_dir] (a string or a path, existing or not) have the same
    outcome and make the same file-system calls: the directory is never
    probed. *)
Theorem profile_dir_unused_with_explicit_plates :
  forall w dir1 dir2 sf plates,
    is_returned (coerce_dir dir1) = true ->
    is_returned (coerce_dir dir2) = true ->
    plates <> PyNone ->
    load_and_concat_profiles polars is_metadata_column dir1 sf plates w
    = load_and_concat_profiles polars is_metadata_column dir2 sf plates w.
Proof.
  intros w dir1 dir2 sf plates H1 H2 Hp.
  unfold load_and_concat_profiles, bind at 1 6, lift at 1 4.
  destruct (coerce_dir dir1) as [e|d1]; [discriminate|].
  destruct (coerce_dir dir2) as [e|d2]; [discriminate|].
  unfold bind at 1 5, lift at 1 3.
  destruct (check_specific_plates plates) as [e|[l|]] eqn:C; try reflexivity.
  destruct plates; simpl in C; try discriminate; [congruence|].
  destruct (negb (forallb is_path items)); discriminate.
Qed.

(** C10 (as amended).  When an entry of [shared_features] is also a
    metadata column name of a chosen, readable file -- and is not a
    regular expression that matches no column of it -- the call never
    returns a table.  When
    moreover the files before it load and the first name that polars
    selects for that file and cannot serve -- missing from the table or
    selected before -- is a repeated one, [r], the call raises polars'
    [DuplicateError] for [r] at that file, and no later file has been
    read. *)
Theorem metadata_name_among_shared_features_fails :
  forall w dir feats plates files f df n,
    chosen_files w dir plates = Returned files ->
    In f files ->
    parquet_at w f = Returned df ->
    In n feats ->
    In n (fst (split_meta_and_features is_metadata_column df)) ->
    stands_for polars df n <> Returned [] ->
    is_returned
      (snd (load_and_concat_profiles polars is_metadata_column dir (Some feats) plates w))
    = false
    /\ forall pre post tables before r after,
         files = pre ++ f :: post ->
         Forall2 (fun g t =>
                    loaded_table polars is_metadata_column w (Some feats) g = Returned t)
           pre tables ->
         expand polars df
           (fst (split_meta_and_features is_metadata_column df) ++ feats)
         = Returned (before ++ r :: after) ->
         NoDup before ->
         Forall (fun x => In x (columns df)) before ->
         In r before ->
         exists w',
           load_and_concat_profiles polars is_metadata_column dir (Some feats) plates w
           = (w', Raised (duplicate_name polars r))
           /\ exc_type (duplicate_name polars r) = DuplicateError
           /\ reads (trace w') = reads (trace w) ++ pre ++ [f].
Proof.
  intros w dir feats plates files f df n Hc Hf Hdf Hn Hm Hs.
  assert (T : exists e, loaded_table polars is_metadata_column w (Some feats) f
                        = Raised e).
  { unfold loaded_table. rewrite Hdf. simpl.
    destruct (project polars is_metadata_column (Some feats) df) as [e|t] eqn:P;
      [now exists e|].
    exfalso. destruct (project_expanded _ _ _ _ _ P) as [E [X [_ [Hnd _]]]].
    rewrite expand_app in X.
    destruct (expand polars df
                (fst (split_meta_and_features is_metadata_column df)))
      as [e|M] eqn:XM; simpl in X; [discriminate|].
    destruct (expand polars df feats) as [e|Fs] eqn:XF; simpl in X;
      [discriminate|].
    injection X as <-.
    destruct (expand_each polars df _ _ n XM Hm) as [cs [Hcs HM]].
    destruct (expand_each polars df _ _ n XF Hn) as [cs' [Hcs' HF]].
    rewrite Hcs in Hcs'. injection Hcs' as <-.
    destruct cs as [|c cs]; [contradiction|].
    apply (NoDup_app_disjoint _ _ c Hnd); [apply HM | apply HF]; now left. }
  destruct T as [e Ht]. split.
  - eapply loader_never; eauto.
  - intros pre post tables before r after -> F HE Hnd Hall Hr.
    assert (Hd : loaded_table polars is_metadata_column w (Some feats) f
                 = Raised (duplicate_name polars r)).
    { unfold loaded_table. rewrite Hdf.
      unfold rbind, project, select. rewrite HE.
      apply select_from_first_repeat; auto.
      - rewrite Forall_forall. auto.
      - rewrite Forall_forall in Hall. auto. }
    destruct (loader_stops_at polars is_metadata_column _ _ _ _ _ _ _ _ _ Hc F Hd)
      as [w' [E R]].
    exists w'. auto.
Qed.

End Properties.

(* ===================================================================== *)
(** * Further properties of [load_and_concat_profiles] *)
(* ===================================================================== *)

Section MoreProperties.

Variable polars : Polars.
Variable is_metadata_column : string -> bool.

(** X1.  Every exception the loader raises comes from one of its four
    stages, in this order: the argument checks (a [TypeError] of the check
    of [profile_dir] or of [specific_plates], before any file-system call);
    the choice of the files (a [FileNotFoundError], before any read); the
    loading of one file, after the files before it were loaded and before
    any later one is read (the exception of that file, unchanged); or the
    final [pl.concat], after every file was read. *)
Theorem every_failure_has_a_stage :
  forall w dir sf plates w' e,
    load_and_concat_profiles polars is_metadata_column dir sf plates w = (w', Raised e) ->
    (exc_type e = TypeError /\ w' = w
     /\ (coerce_dir dir = Raised e \/ check_specific_plates plates = Raised e))
    \/ (exc_type e = FileNotFoundError
        /\ chosen_files w dir plates = Raised e
        /\ reads (trace w') = reads (trace w))
    \/ (exists pre f post tables,
          chosen_files w dir plates = Returned (pre ++ f :: post)
          /\ Forall2 (fun g t =>
                        loaded_table polars is_metadata_column w sf g = Returned t)
               pre tables
          /\ loaded_table polars is_metadata_column w sf f = Raised e
          /\ reads (trace w') = reads (trace w) ++ pre ++ [f])
    \/ (exists files tables,
          chosen_files w dir plates = Returned files
          /\ Forall2 (fun f t =>
                        loaded_table polars is_metadata_column w sf f = Returned t)
               files tables
          /\ concat tables = Raised e
          /\ reads (trace w') = reads (trace w) ++ files).
Proof.
  intros w dir sf plates w' e H. now apply loader_raised.
Qed.


(** X3.  With an explicit list whose paths all exist, the loader checks the
    existence of every listed path, in order, and only then reads.  Either
    every listed file loads: then all of them are read, in order, and the
    outcome is that of [pl.concat] on the loaded tables.  Or the files
    before some listed file load and that file fails: then these files and
    that one are read, in order, no later one is, and the exception of that
    file is raised.  It never globs. *)
Theorem explicit_list_checks_then_reads :
  forall w dir d sf l,
    coerce_dir dir = Returned d ->
    Forall (present w) l ->
    (exists tables,
       Forall2 (fun f t =>
                  loaded_table polars is_metadata_column w sf f = Returned t)
         l tables
       /\ load_and_concat_profiles polars is_metadata_column dir sf
            (PyList (map PyPath l)) w
          = (extend w (map EvExists l ++ map EvRead l), concat tables))
    \/ (exists pre f post tables e,
          l = pre ++ f :: post
          /\ Forall2 (fun g t =>
                        loaded_table polars is_metadata_column w sf g = Returned t)
               pre tables
          /\ loaded_table polars is_metadata_column w sf f = Raised e
          /\ load_and_concat_profiles polars is_metadata_column dir sf
               (PyList (map PyPath l)) w
             = (extend w (map EvExists l ++ map EvRead (pre ++ [f])), Raised e)).
Proof.
  intros w dir d sf l Hd Hl. rewrite loader_stages.
  rewrite (choose_files_explicit w dir d l Hd Hl).
  destruct (for_each (load_profile polars is_metadata_column sf) l
              (extend w (map EvExists l))) as [w2 [e|ts]] eqn:E.
  - right.
    destruct (for_each_load_raised _ _ _ _ _ _ _ E)
      as [pre [f [post [tables [-> [F [Hf ->]]]]]]].
    rewrite table_of_extend in Hf.
    exists pre, f, post, tables, e.
    split; [reflexivity|]. split; [|split; [assumption|]].
    + eapply Forall2_impl; [|exact F]. intros g t Hg.
      cbv beta in Hg |- *. now rewrite table_of_extend in Hg.
    + now rewrite extend_extend.
  - left. destruct (for_each_load_returned _ _ _ _ _ _ _ E) as [F ->].
    exists ts. split.
    + eapply Forall2_impl; [|exact F]. intros g t Hg.
      cbv beta in Hg |- *. now rewrite table_of_extend in Hg.
    + now rewrite extend_extend.
Qed.

(** X4.  Without an explicit list, the loader globs once and then reads
    only what the glob found, in listing order and each file once: entries
    directly under [profile_dir] whose name ends in [.parquet], all of them
    existing.  It makes no existence check. *)
Theorem discovery_reads_direct_parquet_children :
  forall w dir d sf,
    coerce_dir dir = Returned d ->
    exists k,
      trace (fst (load_and_concat_profiles polars is_metadata_column dir sf PyNone w))
      = trace w ++ EvGlob d "*.parquet"
          :: map EvRead (firstn k (matching_files w d ".parquet"))
      /\ NoDup (firstn k (matching_files w d ".parquet"))
      /\ Forall (fun p =>
                   exists name,
                     p = Pathlib.child d name
                     /\ Text.ends_with ".parquet" name = true
                     /\ resolve w p <> None)
           (firstn k (matching_files w d ".parquet")).
Proof.
  intros w dir d sf Hd.
  assert (Hall : forall k,
             NoDup (firstn k (matching_files w d ".parquet"))
             /\ Forall (fun p =>
                          exists name,
                            p = Pathlib.child d name
                            /\ Text.ends_with ".parquet" name = true
                            /\ resolve w p <> None)
                  (firstn k (matching_files w d ".parquet"))).
  { intros k. split.
    - pose proof (matching_files_NoDup w d ".parquet") as N.
      rewrite <- (firstn_skipn k) in N. apply NoDup_app_remove_r in N. exact N.
    - rewrite Forall_forall. intros p Hin. apply in_firstn in Hin.
      destruct (matching_files_in w d ".parquet" p eq_refl eq_refl Hin)
        as [name [entries [ds [_ [-> [_ [Hs Hr]]]]]]].
      exists name. auto. }
  destruct (matching_files w d ".parquet") as [|p found] eqn:M.
  - exists 0. split; [|apply (Hall 0)].
    rewrite loader_stages. unfold choose_files, bind, lift. rewrite Hd. simpl.
    step. now rewrite M.
  - rewrite <- M in *. rewrite loader_stages.
    rewrite (choose_files_discovery w dir d Hd) by (rewrite M; discriminate).
    destruct (for_each_load_prefix polars is_metadata_column sf
                (matching_files w d ".parquet")
                (extend w [EvGlob d "*.parquet"])) as [k [Hk [Hfst _]]].
    exists k. split; [|apply Hall].
    destruct (for_each (load_profile polars is_metadata_column sf)
                (matching_files w d ".parquet")
                (extend w [EvGlob d "*.parquet"])) as [w2 [e|ts]];
      cbn [fst] in *; subst w2; simpl; now rewrite <- app_assoc.
Qed.

(** X5.  Discovery is the explicit path with the discovered files: when
    the glob finds at least one file and every path it finds passes the
    existence check, a call without an explicit list has the outcome of
    the call that lists the discovered files. *)
Theorem discovery_equals_explicit_listing :
  forall w dir d sf,
    coerce_dir dir = Returned d ->
    matching_files w d ".parquet" <> [] ->
    Forall (present w) (matching_files w d ".parquet") ->
    snd (load_and_concat_profiles polars is_metadata_column dir sf PyNone w)
    = snd (load_and_concat_profiles polars is_metadata_column dir sf
             (PyList (map PyPath (matching_files w d ".parquet"))) w).
Proof.
  intros w dir d sf Hd Hne Hpres. rewrite !loader_stages.
  rewrite (choose_files_discovery w dir d Hd Hne).
  rewrite (choose_files_explicit w dir d _ Hd Hpres).
  pose proof (reads_only_result
                (for_each (load_profile polars is_metadata_column sf)
                   (matching_files w d ".parquet"))
                (extend w [EvGlob d "*.parquet"])
                (extend w (map EvExists (matching_files w d ".parquet")))
                (reads_only_for_each _ _
                   (reads_only_load_profile polars is_metadata_column sf))
                eq_refl eq_refl) as R.
  destruct (for_each _ _ (extend w [EvGlob d "*.parquet"])) as [w1 [e1|t1]];
    destruct (for_each _ _ (extend w (map EvExists _))) as [w2 [e2|t2]];
    simpl in *; congruence.
Qed.

(** X6.  A returned table is the stack of the loaded tables in file order:
    there was at least one file, every chosen file was read once, in
    order, and loaded; the height is the sum of the heights, and every
    column holds the cells of the loaded tables one after the other (no
    row is dropped, repeated or moved). *)
Theorem returned_table_is_stack :
  forall w dir sf plates w' out,
    load_and_concat_profiles polars is_metadata_column dir sf plates w
    = (w', Returned out) ->
    exists files tables,
      chosen_files w dir plates = Returned files
      /\ files <> []
      /\ reads (trace w') = reads (trace w) ++ files
      /\ Forall2 (fun f t =>
                    loaded_table polars is_metadata_column w sf f = Returned t)
           files tables
      /\ height out = list_sum (map height tables)
      /\ forall c, column_values c out = flat_map (column_values c) tables.
Proof.
  intros w dir sf plates w' out H.
  destruct (loader_returned _ _ _ _ _ _ _ _ H)
    as [files [tables [Hc [F [C R]]]]].
  destruct (concat_stacks _ _ C) as [Hne [Hh Hv]].
  exists files, tables. repeat split; auto.
  intros ->. inversion F; subst. congruence.
Qed.

(** X7.  Whenever at least one file is chosen, every chosen file loads and
    the loaded tables have one schema, the loader returns a table of that
    schema whose height is the sum of their heights -- with or without
    shared features, for an explicit list as for discovery. *)
Theorem same_schema_tables_stack :
  forall w dir sf plates files tables sch,
    chosen_files w dir plates = Returned files ->
    files <> [] ->
    Forall2 (fun f t => loaded_table polars is_metadata_column w sf f = Returned t)
      files tables ->
    Forall (fun t => schema t = sch) tables ->
    exists out w',
      load_and_concat_profiles polars is_metadata_column dir sf plates w
      = (w', Returned out)
      /\ schema out = sch
      /\ height out = list_sum (map height tables)
      /\ reads (trace w') = reads (trace w) ++ files.
Proof.
  intros w dir sf plates files tables sch Hc Hne F S.
  destruct (loader_loaded polars is_metadata_column _ _ _ _ _ _ Hc F) as [w' [E R]].
  assert (Ht : tables <> []).
  { intros ->. inversion F; subst. congruence. }
  destruct (concat_same_schema sch tables Ht S) as [out [C So]].
  destruct (concat_stacks _ _ C) as [_ [Hh _]].
  exists out, w'. rewrite C in E. auto.
Qed.

(** X8.  The use the notebook makes of the loader.  When at least one file
    is chosen, every chosen file is a table with unique column names, the
    tables have the same metadata columns (names, types, order), the
    shared features are distinct feature columns that every table has with
    the same type, and all these names are plain -- not ["*"] and not of
    the form [^...$] -- the loader returns: the table has the metadata columns
    followed by the shared features in the given order, and each of its
    columns holds the cells of that column of the files, in file order. *)
Theorem shared_feature_load_succeeds :
  forall w dir plates files dfs meta_sch feat_sch,
    chosen_files w dir plates = Returned files ->
    files <> [] ->
    Forall2 (fun f df => parquet_at w f = Returned df) files dfs ->
    Forall (fun df =>
              NoDup (columns df)
              /\ filter (fun cd => is_metadata_column (fst cd)) (schema df)
                 = meta_sch
              /\ Forall (fun cd => In cd (schema df)) feat_sch) dfs ->
    Forall (fun cd => is_metadata_column (fst cd) = false) feat_sch ->
    NoDup (map fst feat_sch) ->
    Forall (fun n => plain_name n = true) (map fst meta_sch) ->
    Forall (fun n => plain_name n = true) (map fst feat_sch) ->
    exists out w',
      load_and_concat_profiles polars is_metadata_column dir (Some (map fst feat_sch))
        plates w = (w', Returned out)
      /\ schema out = meta_sch ++ feat_sch
      /\ (forall c, In c (map fst (meta_sch ++ feat_sch)) ->
                    column_values c out = flat_map (column_values c) dfs)
      /\ reads (trace w') = reads (trace w) ++ files.
Proof.
  intros w dir plates files dfs meta_sch feat_sch Hc Hne F Hdfs Hfeat Hnd
         Hpm Hpf.
  assert (T : exists tables,
             Forall2 (fun f t =>
                        loaded_table polars is_metadata_column w (Some (map fst feat_sch)) f
                        = Returned t) files tables
             /\ Forall (fun t => schema t = meta_sch ++ feat_sch) tables
             /\ forall c, In c (map fst (meta_sch ++ feat_sch)) ->
                          flat_map (column_values c) tables
                          = flat_map (column_values c) dfs).
  { clear Hc Hne. induction F as [|f df files dfs Hf F IH].
    - exists []. repeat split; constructor.
    - inversion Hdfs as [|? ? [Hu [Hm Hin]] Hrest]; subst.
      destruct (IH Hrest) as [tables [F' [S' V']]].
      destruct (project_shared polars is_metadata_column _ feat_sch df
                  Hu Hpm Hpf eq_refl)
        as [t [Hp [Hs Hv]]]; auto.
      { rewrite Forall_forall in *. intros cd Hcd. auto. }
      exists (t :: tables). repeat split.
      + constructor; [|assumption]. unfold loaded_table. now rewrite Hf.
      + constructor; assumption.
      + intros c Hcin. simpl. now rewrite (Hv c Hcin), (V' c Hcin). }
  destruct T as [tables [F' [S' V']]].
  destruct (loader_loaded polars is_metadata_column _ _ _ _ _ _ Hc F') as [w' [E R]].
  assert (Ht : tables <> []).
  { intros ->. inversion F'; subst. congruence. }
  destruct (concat_same_schema _ tables Ht S') as [out [C So]].
  destruct (concat_stacks _ _ C) as [_ [_ Hv]].
  exists out, w'. rewrite C in E. repeat split; auto.
  intros c Hcin. now rewrite Hv, V'.
Qed.

(** X9.  A call with shared features that are plain names -- not ["*"]
    and not of the form [^...$] -- returns only if the shared features
    are pairwise distinct and each of them is a column of every chosen
    file that the naming convention does not class as metadata. *)
Theorem shared_features_needed_in_every_file :
  forall w dir feats plates w' out,
    Forall (fun n => plain_name n = true) feats ->
    load_and_concat_profiles polars is_metadata_column dir (Some feats) plates w
    = (w', Returned out) ->
    NoDup feats
    /\ exists files,
         chosen_files w dir plates = Returned files
         /\ Forall (fun f =>
                      exists df,
                        parquet_at w f = Returned df
                        /\ Forall (fun c => In c (columns df)
                                            /\ is_metadata_column c = false)
                             feats) files.
Proof.
  intros w dir feats plates w' out Hplain H.
  destruct (loader_returned _ _ _ _ _ _ _ _ H)
    as [files [tables [Hc [F [C _]]]]].
  assert (P : Forall2 (fun f t =>
                exists df, parquet_at w f = Returned df
                  /\ project polars is_metadata_column (Some feats) df = Returned t)
              files tables).
  { eapply Forall2_impl; [|exact F]. intros f t Ht. unfold loaded_table in Ht.
    destruct (parquet_at w f) as [e|df]; [discriminate|]. exists df. auto. }
  split.
  - destruct tables as [|t tables]; [discriminate|].
    inversion P as [|f ? ? ? [df [_ Hp]]]; subst.
    now destruct (project_plain_features _ _ _ _ _ Hplain Hp)
      as [M [_ [_ [Hnd _]]]].
  - exists files. split; [assumption|]. clear C F Hc.
    induction P as [|f t files tables [df [Hdf Hp]] P IH]; constructor; auto.
    exists df. split; [assumption|].
    now destruct (project_plain_features _ _ _ _ _ Hplain Hp)
      as [M [_ [_ [_ Hall]]]].
Qed.

(** X10.  What [load_profile] returns for a table with unique column
    names when the shared features are distinct feature columns of it and
    its metadata column names and the shared features are plain names: the
    file is read once; the result has the metadata columns, then the shared
    features in the given order; every column kept holds the cells it holds
    in the file, and every other column is gone. *)
Theorem load_profile_keeps_selected_cells :
  forall w f df feats,
    parquet_at w f = Returned df ->
    NoDup (columns df) ->
    NoDup feats ->
    Forall (fun c => In c (columns df) /\ is_metadata_column c = false) feats ->
    Forall (fun n => plain_name n = true)
      (fst (split_meta_and_features is_metadata_column df)) ->
    Forall (fun n => plain_name n = true) feats ->
    exists t,
      load_profile polars is_metadata_column (Some feats) f w
      = (extend w [EvRead f], Returned t)
      /\ columns t = fst (split_meta_and_features is_metadata_column df) ++ feats
      /\ (forall c, In c (columns t) -> column_values c t = column_values c df)
      /\ (forall c, ~ In c (columns t) -> column_values c t = []).
Proof.
  intros w f df feats Hdf Hu Hnd Hall Hpm Hpf.
  destruct (project_total polars is_metadata_column feats df Hu Hnd Hpm Hpf Hall)
    as [t [Hp Hc]].
  destruct (project_cells polars is_metadata_column _ _ _ Hp) as [Hin Hout].
  exists t. split; [|auto].
  rewrite load_profile_run. unfold loaded_table. rewrite Hdf. cbn [rbind].
  now rewrite Hp.
Qed.

(** X11.  One listed file and no shared features: the loader checks that
    the file exists, reads it, and returns the table exactly as stored. *)
Theorem single_file_returned_as_stored :
  forall w dir d p df,
    coerce_dir dir = Returned d ->
    parquet_at w p = Returned df ->
    load_and_concat_profiles polars is_metadata_column dir None (PyList [PyPath p]) w
    = (extend w [EvExists p; EvRead p], Returned df).
Proof.
  intros w dir d p df Hd Hp.
  assert (Hpres : Forall (present w) [p]).
  { constructor; [|constructor]. unfold present. unfold parquet_at in Hp.
    destruct (resolve w p); [discriminate | discriminate]. }
  change (PyList [PyPath p]) with (PyList (map PyPath [p])).
  rewrite loader_stages.
  rewrite (choose_files_explicit w dir d [p] Hd Hpres).
  rewrite (for_each_load_all polars is_metadata_column None [p] [df]).
  - rewrite extend_extend. reflexivity.
  - constructor; [|constructor]. unfold loaded_table.
    rewrite parquet_at_extend, Hp. reflexivity.
Qed.

(** X12.  The first chosen file that fails to load aborts the call: the
    loader raises the exception of that file as it is, the files before it
    have been read and no file after it is, and the directory tree is left
    untouched. *)
Theorem first_failing_file_aborts :
  forall w dir sf plates pre f post tables e,
    chosen_files w dir plates = Returned (pre ++ f :: post) ->
    Forall2 (fun g t => loaded_table polars is_metadata_column w sf g = Returned t)
      pre tables ->
    loaded_table polars is_metadata_column w sf f = Raised e ->
    exists w',
      load_and_concat_profiles polars is_metadata_column dir sf plates w = (w', Raised e)
      /\ reads (trace w') = reads (trace w) ++ pre ++ [f]
      /\ root w' = root w.
Proof.
  intros w dir sf plates pre f post tables e Hc F Hf.
  destruct (loader_stops_at polars is_metadata_column _ _ _ _ _ _ _ _ _ Hc F Hf)
    as [w' [E R]].
  exists w'. repeat split; auto.
  destruct w as [rt cw t].
  destruct (reads_only_loader polars is_metadata_column dir sf plates rt cw)
    as [evs [r E']].
  rewrite (E' t) in E. now injection E as <- _.
Qed.

(** X13.  Arguments of a wrong type are reported first and cost nothing:
    a [profile_dir] that is neither a string nor a path raises the
    [TypeError] of its check whatever the other arguments are; with a valid
    [profile_dir], a [specific_plates] that is not a list of paths raises
    the [TypeError] of its check, even when listed paths do not exist.  No
    file-system call is made in either case. *)
Theorem wrong_argument_types_raise_first :
  forall w dir sf plates e,
    coerce_dir dir = Raised e
    \/ (is_returned (coerce_dir dir) = true
        /\ check_specific_plates plates = Raised e) ->
    load_and_concat_profiles polars is_metadata_column dir sf plates w = (w, Raised e)
    /\ exc_type e = TypeError.
Proof.
  intros w dir sf plates e [Hd|[Hd Hp]];
    unfold load_and_concat_profiles, bind, lift.
  - rewrite Hd. split; [reflexivity|].
    destruct dir; simpl in Hd; try discriminate; now injection Hd as <-.
  - destruct (coerce_dir dir) as [e0|d]; [discriminate|]. rewrite Hp.
    split; [reflexivity|].
    destruct plates; simpl in Hp; try discriminate; try (now injection Hp as <-).
    destruct (negb (forallb is_path items));
      [now injection Hp as <- | discriminate].
Qed.

(** X14.  With an explicit list, the outcome depends on the listed files
    alone: in two worlds where every listed path leads to the same thing,
    the two calls return the same table or raise the same exception,
    whatever else the two disks hold and whatever [profile_dir] is. *)
Theorem explicit_list_outcome_depends_on_listed_files_only :
  forall w1 w2 dir1 dir2 sf l,
    is_returned (coerce_dir dir1) = true ->
    is_returned (coerce_dir dir2) = true ->
    (forall p, In p l -> resolve w1 p = resolve w2 p) ->
    snd (load_and_concat_profiles polars is_metadata_column dir1 sf
           (PyList (map PyPath l)) w1)
    = snd (load_and_concat_profiles polars is_metadata_column dir2 sf
             (PyList (map PyPath l)) w2).
Proof.
  intros w1 w2 dir1 dir2 sf l H1 H2 Hagree.
  destruct (coerce_dir dir1) as [e1|d1] eqn:Hd1; [discriminate|].
  destruct (coerce_dir dir2) as [e2|d2] eqn:Hd2; [discriminate|].
  rewrite !loader_stages.
  destruct (classic_missing w1 l) as [Hall|Hmiss].
  - assert (Hall2 : Forall (present w2) l).
    { rewrite Forall_forall in *. intros p Hp. unfold present.
      rewrite <- (Hagree p Hp). now apply Hall. }
    rewrite (choose_files_explicit w1 dir1 d1 l Hd1 Hall).
    rewrite (choose_files_explicit w2 dir2 d2 l Hd2 Hall2).
    pose proof (for_each_load_agree polars is_metadata_column sf l
                  (extend w1 (map EvExists l)) (extend w2 (map EvExists l)))
      as A.
    destruct (for_each _ l (extend w1 _)) as [x1 [a1|t1]];
      destruct (for_each _ l (extend w2 _)) as [x2 [a2|t2]];
      simpl in A |- *;
      (assert (Hag : forall f, In f l ->
                 parquet_at (extend w1 (map EvExists l)) f
                 = parquet_at (extend w2 (map EvExists l)) f)
         by (intros f Hf; rewrite !parquet_at_extend; unfold parquet_at;
             now rewrite (Hagree f Hf)));
      specialize (A Hag); congruence.
  - destruct (first_missing w1 l Hmiss) as [pre [p [post [-> [Hpre Hp]]]]].
    assert (Hpre2 : Forall (present w2) pre).
    { rewrite Forall_forall in *. intros q Hq. unfold present.
      rewrite <- (Hagree q) by (apply in_or_app; now left). now apply Hpre. }
    assert (Hp2 : resolve w2 p = None).
    { rewrite <- (Hagree p) by (apply in_or_app; simpl; auto). exact Hp. }
    unfold choose_files, bind, lift. rewrite Hd1, Hd2.
    unfold check_specific_plates.
    rewrite forallb_is_path_paths, as_paths_paths. simpl. unfold bind.
    rewrite (check_plates_exist_missing pre p post w1 Hpre Hp).
    rewrite (check_plates_exist_missing pre p post w2 Hpre2 Hp2).
    reflexivity.
Qed.

End MoreProperties.

(* ===================================================================== *)
(** * The properties on the small disk *)
(* ===================================================================== *)

Ltac distinct_names :=
  repeat (constructor; [simpl; intuition discriminate|]); constructor.

(** The spec's end-to-end example: P1 and P2 discovered under [profiles],
    shared feature [Feature_1]. *)
Lemma shared_features_projection_witness :
  Example.load (PyPath Example.profiles) (Some ["Feature_1"]) PyNone Example.world
  = (extend Example.world
       [EvGlob Example.profiles "*.parquet"; EvRead Example.p1; EvRead Example.p2],
     Returned Example.combined)
  /\ snd (split_meta_and_features Example.is_metadata_column Example.combined)
     = ["Feature_1"]
  /\ height Example.combined = 5.
Proof.
  assert (H : Example.load (PyPath Example.profiles) (Some ["Feature_1"]) PyNone
                Example.world
              = (extend Example.world
                   [EvGlob Example.profiles "*.parquet";
                    EvRead Example.p1; EvRead Example.p2],
                 Returned Example.combined)) by reflexivity.
  split; [exact H | split; [|reflexivity]].
  destruct (shared_features_projection _ _ _ _ _ _ _ _ H)
    as [files [tables [Hc [_ [_ [_ Plain]]]]]].
  assert (Hf : files = [Example.p1; Example.p2]).
  { change (Returned [Example.p1; Example.p2] = Returned files) in Hc.
    now injection Hc. }
  subst files.
  destruct Plain as [_ [S _]]; [|exact S].
  repeat (apply Forall_cons;
          [intros df Hdf;
           first [ change (Returned Example.P1 = Returned df) in Hdf
                 | change (Returned Example.P2 = Returned df) in Hdf ];
           injection Hdf as <-; reflexivity|]).
  apply Forall_nil.
Defined.

(** P3 does not exist: the call stops at its existence check. *)
Lemma missing_explicit_file_fails_first_witness :
  exists missing w',
    In missing [Example.p1; Example.p3; Example.p2]
    /\ resolve Example.world missing = None
    /\ load_and_concat_profiles Example.polars Example.is_metadata_column (PyStr "profiles") None
         (PyList (map PyPath [Example.p1; Example.p3; Example.p2])) Example.world
       = (w', Raised (profile_not_found missing))
    /\ exc_type (profile_not_found missing) = FileNotFoundError
    /\ names_text (profile_not_found missing) (Pathlib.str missing) = true
    /\ reads (trace w') = reads (trace Example.world)
    /\ root w' = root Example.world.
Proof.
  apply missing_explicit_file_fails_first; [reflexivity|].
  exists Example.p3. split; [simpl; auto | reflexivity].
Defined.

(** [tagged] lacks [Feature_2], which is selected right after its metadata
    column; the repeated [Metadata_Plate] comes later and is not reached.
    P2, after it, is not read. *)
Lemma missing_shared_feature_fails_witness :
  In "Feature_2" ["Feature_2"; "Metadata_Plate"]
  /\ plain_name "Feature_2" = true
  /\ (exists w',
        load_and_concat_profiles Example.polars Example.is_metadata_column
          (PyStr "x") (Some ["Feature_2"; "Metadata_Plate"])
          (PyList [PyPath Example.tagged_file; PyPath Example.p2]) Example.world
        = (w', Raised (column_not_found Example.polars "Feature_2" Example.tagged))
        /\ reads (trace w')
           = reads (trace Example.world) ++ [] ++ [Example.tagged_file])
  /\ exc_type (column_not_found Example.polars "Feature_2" Example.tagged)
     = ColumnNotFoundError
  /\ names_text (column_not_found Example.polars "Feature_2" Example.tagged)
       "Feature_2" = true
  /\ (forall w2 f2,
        parquet_at w2 f2 = Returned Example.tagged ->
        loaded_table Example.polars Example.is_metadata_column w2
          (Some ["Feature_2"; "Metadata_Plate"]) f2
        = Raised (column_not_found Example.polars "Feature_2" Example.tagged)).
Proof.
  apply (missing_shared_feature_fails Example.polars Example.is_metadata_column
           Example.world (PyStr "x") ["Feature_2"; "Metadata_Plate"]
           (PyList [PyPath Example.tagged_file; PyPath Example.p2])
           [] Example.tagged_file [Example.p2] []
           Example.tagged ["Metadata_Plate"] "Feature_2" ["Metadata_Plate"]).
  - reflexivity.
  - constructor.
  - reflexivity.
  - reflexivity.
  - distinct_names.
  - constructor; [simpl; auto | constructor].
  - simpl; intuition discriminate.
Defined.

(** The directory [profiles]: two tables of one schema, three and two
    rows. *)
Lemma discovery_stacks_all_rows_witness :
  exists out w',
    load_and_concat_profiles Example.polars Example.is_metadata_column (PyStr "profiles/") None
      PyNone Example.world = (w', Returned out)
    /\ height out = list_sum (map height [Example.P1; Example.P2])
    /\ schema out = schema Example.P1
    /\ columns out = map fst (schema Example.P1)
    /\ (forall c, column_values c out
                  = flat_map (column_values c) [Example.P1; Example.P2])
    /\ reads (trace w') = reads (trace Example.world) ++ [Example.p1; Example.p2].
Proof.
  apply (discovery_stacks_all_rows Example.polars Example.is_metadata_column
           Example.world
           (PyStr "profiles/") Example.profiles [Example.p1; Example.p2]
           [Example.P1; Example.P2] (schema Example.P1)).
  - reflexivity.
  - reflexivity.
  - discriminate.
  - repeat constructor.
  - repeat constructor.
Defined.


(** The directory [empty] exists and holds nothing. *)
Lemma empty_discovery_fails_witness :
  load_and_concat_profiles Example.polars Example.is_metadata_column (PyStr "./empty") None PyNone
    Example.world
  = (extend Example.world [EvGlob (Pathlib.of_str "./empty") "*.parquet"],
     Raised (no_profiles_found (Pathlib.of_str "./empty")))
  /\ exc_type (no_profiles_found (Pathlib.of_str "./empty")) = FileNotFoundError
  /\ names_text (no_profiles_found (Pathlib.of_str "./empty"))
       (Pathlib.str (Pathlib.of_str "./empty")) = true.
Proof.
  apply empty_discovery_fails; [reflexivity|].
  right. left. exists Example.no_data_set. reflexivity.
Defined.


Lemma empty_explicit_list_fails_at_concat_witness :
  load_and_concat_profiles Example.polars Example.is_metadata_column (PyStr "profiles")
    (Some ["Feature_1"]) (PyList []) Example.world
  = (Example.world, Raised (mkExc ValueError "cannot concat empty list")).
Proof.
  apply empty_explicit_list_fails_at_concat. reflexivity.
Defined.

(** An existing directory given as a string, and a missing one given as a
    path. *)
Lemma profile_dir_unused_with_explicit_plates_witness :
  load_and_concat_profiles Example.polars Example.is_metadata_column (PyStr "profiles")
    (Some ["Feature_1"]) (PyList [PyPath Example.p1; PyPath Example.p2])
    Example.world
  = load_and_concat_profiles Example.polars Example.is_metadata_column
      (PyPath (Pathlib.of_str "/nowhere"))
      (Some ["Feature_1"]) (PyList [PyPath Example.p1; PyPath Example.p2])
      Example.world.
Proof.
  apply profile_dir_unused_with_explicit_plates;
    [reflexivity | reflexivity | discriminate].
Defined.

(** [Metadata_Plate] asked for as a shared feature of P1, ahead of
    [Feature_9], which P1 lacks: the repeated name is met first. *)
Lemma metadata_name_among_shared_features_fails_witness :
  is_returned
    (snd (load_and_concat_profiles Example.polars Example.is_metadata_column (PyStr "x")
            (Some ["Metadata_Plate"; "Feature_9"])
            (PyList [PyPath Example.p1; PyPath Example.p2]) Example.world))
  = false
  /\ exists w',
       load_and_concat_profiles Example.polars Example.is_metadata_column (PyStr "x")
         (Some ["Metadata_Plate"; "Feature_9"])
         (PyList [PyPath Example.p1; PyPath Example.p2]) Example.world
       = (w', Raised (duplicate_name Example.polars "Metadata_Plate"))
       /\ exc_type (duplicate_name Example.polars "Metadata_Plate") = DuplicateError
       /\ reads (trace w') = reads (trace Example.world) ++ [] ++ [Example.p1].
Proof.
  pose proof (metadata_name_among_shared_features_fails
                Example.polars Example.is_metadata_column Example.world (PyStr "x")
                ["Metadata_Plate"; "Feature_9"]
                (PyList [PyPath Example.p1; PyPath Example.p2])
                [Example.p1; Example.p2] Example.p1 Example.P1
                "Metadata_Plate"
                ltac:(reflexivity) ltac:(simpl; auto) ltac:(reflexivity)
                ltac:(simpl; auto) ltac:(simpl; auto) ltac:(discriminate))
    as [Never At].
  split; [exact Never|].
  apply (At [] [Example.p2] [] ["Metadata_Plate"; "Metadata_Well"]
            "Metadata_Plate" ["Feature_9"]).
  - reflexivity.
  - constructor.
  - reflexivity.
  - distinct_names.
  - repeat (apply Forall_cons; [simpl; auto 10|]). apply Forall_nil.
  - simpl; auto.
Defined.

(* ===================================================================== *)
(** * Where the code differs from the wording *)
(* ===================================================================== *)

(** C1, as worded, fails: the shared feature [^Feature_.*$] is taken by
    polars as a regular expression; P1 is returned with its two feature
    columns, which are not the supplied list. *)
Lemma regex_shared_feature_selects_many :
  snd (Example.load (PyStr "x") (Some ["^Feature_.*$"])
         (PyList [PyPath Example.p1]) Example.world)
  = Returned Example.P1
  /\ snd (split_meta_and_features Example.is_metadata_column Example.P1)
     = ["Feature_1"; "Feature_2"]
  /\ snd (split_meta_and_features Example.is_metadata_column Example.P1)
     <> ["^Feature_.*$"]
  /\ columns Example.P1
     <> fst (split_meta_and_features Example.is_metadata_column Example.P1)
          ++ ["^Feature_.*$"].
Proof.
  split; [reflexivity|]. split; [reflexivity|]. split; discriminate.
Qed.

(** C3, as worded, fails: P1 is to be loaded, is readable and lacks the
    shared feature [Feature_9]; the exception names the column and does not
    name the file, and it is the same for the copy of P1 stored under
    another name. *)
Lemma missing_column_error_omits_file :
  parquet_at Example.world Example.p1 = Returned Example.P1
  /\ ~ In "Feature_9" (columns Example.P1)
  /\ snd (Example.load (PyStr "x") (Some ["Feature_9"])
            (PyList [PyPath Example.p1]) Example.world)
     = Raised (column_not_found Example.polars "Feature_9" Example.P1)
  /\ snd (Example.load (PyStr "x") (Some ["Feature_9"])
            (PyList [PyPath Example.copy_of_p1]) Example.world)
     = Raised (column_not_found Example.polars "Feature_9" Example.P1)
  /\ names_text (column_not_found Example.polars "Feature_9" Example.P1)
       "Feature_9" = true
  /\ names_text (column_not_found Example.polars "Feature_9" Example.P1)
       (Pathlib.str Example.p1) = false
  /\ names_text (column_not_found Example.polars "Feature_9" Example.P1)
       "P1.parquet" = false.
Proof.
  split; [reflexivity|]. split; [simpl; intuition discriminate|].
  repeat split.
Qed.


(** C10, as worded, fails: [Metadata_Plate] is a metadata column of P1 and
    is among the shared features, yet the exception is the one for the
    missing [Feature_9], listed before it. *)
Lemma missing_feature_reported_before_duplicate :
  parquet_at Example.world Example.p1 = Returned Example.P1
  /\ In "Metadata_Plate" ["Feature_9"; "Metadata_Plate"]
  /\ In "Metadata_Plate"
       (fst (split_meta_and_features Example.is_metadata_column Example.P1))
  /\ snd (Example.load (PyStr "x") (Some ["Feature_9"; "Metadata_Plate"])
            (PyList [PyPath Example.p1]) Example.world)
     = Raised (column_not_found Example.polars "Feature_9" Example.P1)
  /\ exc_type (column_not_found Example.polars "Feature_9" Example.P1)
     <> DuplicateError.
Proof.
  split; [reflexivity|]. split; [simpl; auto|]. split; [simpl; auto|].
  split; [reflexivity | discriminate].
Qed.

(* ===================================================================== *)
(** * The further properties on the small disk *)
(* ===================================================================== *)

(** [notes.txt] is listed between P1 and P2: the failure belongs to the
    loading stage (the third case). *)
Lemma every_failure_has_a_stage_witness :
  (exc_type Example.not_parquet = TypeError
   /\ extend Example.world
        [EvExists Example.p1; EvExists Example.notes; EvExists Example.p2;
         EvRead Example.p1; EvRead Example.notes] = Example.world
   /\ (coerce_dir (PyStr "x") = Raised Example.not_parquet
       \/ check_specific_plates
            (PyList [PyPath Example.p1; PyPath Example.notes; PyPath Example.p2])
          = Raised Example.not_parquet))
  \/ (exc_type Example.not_parquet = FileNotFoundError
      /\ chosen_files Example.world (PyStr "x")
           (PyList [PyPath Example.p1; PyPath Example.notes; PyPath Example.p2])
         = Raised Example.not_parquet
      /\ reads (trace (extend Example.world
                         [EvExists Example.p1; EvExists Example.notes;
                          EvExists Example.p2;
                          EvRead Example.p1; EvRead Example.notes]))
         = reads (trace Example.world))
  \/ (exists pre f post tables,
        chosen_files Example.world (PyStr "x")
          (PyList [PyPath Example.p1; PyPath Example.notes; PyPath Example.p2])
        = Returned (pre ++ f :: post)
        /\ Forall2 (fun g t =>
                      loaded_table Example.polars Example.is_metadata_column Example.world None g
                      = Returned t) pre tables
        /\ loaded_table Example.polars Example.is_metadata_column Example.world None f
           = Raised Example.not_parquet
        /\ reads (trace (extend Example.world
                           [EvExists Example.p1; EvExists Example.notes;
                            EvExists Example.p2;
                            EvRead Example.p1; EvRead Example.notes]))
           = reads (trace Example.world) ++ pre ++ [f])
  \/ (exists files tables,
        chosen_files Example.world (PyStr "x")
          (PyList [PyPath Example.p1; PyPath Example.notes; PyPath Example.p2])
        = Returned files
        /\ Forall2 (fun f t =>
                      loaded_table Example.polars Example.is_metadata_column Example.world None f
                      = Returned t) files tables
        /\ concat tables = Raised Example.not_parquet
        /\ reads (trace (extend Example.world
                           [EvExists Example.p1; EvExists Example.notes;
                            EvExists Example.p2;
                            EvRead Example.p1; EvRead Example.notes]))
           = reads (trace Example.world) ++ files).
Proof.
  apply (every_failure_has_a_stage Example.polars Example.is_metadata_column Example.world
           (PyStr "x") None
           (PyList [PyPath Example.p1; PyPath Example.notes; PyPath Example.p2])).
  reflexivity.
Defined.


(** P1, [notes.txt] and P2 listed, all three existing: the three are
    checked, P1 and [notes.txt] are read, P2 is not. *)
Lemma explicit_list_checks_then_reads_witness :
  (exists tables,
     Forall2 (fun f t =>
                loaded_table Example.polars Example.is_metadata_column
                  Example.world None f = Returned t)
       [Example.p1; Example.notes; Example.p2] tables
     /\ load_and_concat_profiles Example.polars Example.is_metadata_column
          (PyStr "x") None
          (PyList (map PyPath [Example.p1; Example.notes; Example.p2]))
          Example.world
        = (extend Example.world
             (map EvExists [Example.p1; Example.notes; Example.p2]
                ++ map EvRead [Example.p1; Example.notes; Example.p2]),
           concat tables))
  \/ (exists pre f post tables e,
        [Example.p1; Example.notes; Example.p2] = pre ++ f :: post
        /\ Forall2 (fun g t =>
                      loaded_table Example.polars Example.is_metadata_column
                        Example.world None g = Returned t) pre tables
        /\ loaded_table Example.polars Example.is_metadata_column
             Example.world None f = Raised e
        /\ load_and_concat_profiles Example.polars Example.is_metadata_column
             (PyStr "x") None
             (PyList (map PyPath [Example.p1; Example.notes; Example.p2]))
             Example.world
           = (extend Example.world
                (map EvExists [Example.p1; Example.notes; Example.p2]
                   ++ map EvRead (pre ++ [f])),
              Raised e)).
Proof.
  apply (explicit_list_checks_then_reads Example.polars Example.is_metadata_column
           Example.world (PyStr "x") (Pathlib.of_str "x")).
  - reflexivity.
  - repeat (constructor; [discriminate|]). constructor.
Defined.

(** Discovery under [profiles]: [notes.txt] is not read. *)
Lemma discovery_reads_direct_parquet_children_witness :
  exists k,
    trace (fst (load_and_concat_profiles Example.polars Example.is_metadata_column
                  (PyPath Example.profiles) None PyNone Example.world))
    = trace Example.world ++ EvGlob Example.profiles "*.parquet"
        :: map EvRead
             (firstn k (matching_files Example.world Example.profiles ".parquet"))
    /\ NoDup (firstn k (matching_files Example.world Example.profiles ".parquet"))
    /\ Forall (fun p =>
                 exists name,
                   p = Pathlib.child Example.profiles name
                   /\ Text.ends_with ".parquet" name = true
                   /\ resolve Example.world p <> None)
         (firstn k (matching_files Example.world Example.profiles ".parquet")).
Proof.
  apply (discovery_reads_direct_parquet_children Example.polars Example.is_metadata_column
           Example.world (PyPath Example.profiles) Example.profiles None).
  reflexivity.
Defined.

Lemma discovery_equals_explicit_listing_witness :
  snd (load_and_concat_profiles Example.polars Example.is_metadata_column (PyStr "profiles")
         (Some ["Feature_1"]) PyNone Example.world)
  = snd (load_and_concat_profiles Example.polars Example.is_metadata_column (PyStr "profiles")
           (Some ["Feature_1"])
           (PyList (map PyPath
                      (matching_files Example.world (Pathlib.of_str "profiles")
                         ".parquet")))
           Example.world).
Proof.
  apply (discovery_equals_explicit_listing Example.polars Example.is_metadata_column
           Example.world (PyStr "profiles") (Pathlib.of_str "profiles")).
  - reflexivity.
  - discriminate.
  - repeat (constructor; [discriminate|]). constructor.
Defined.

(** The spec's end-to-end example once more: five rows, P1's before
    P2's. *)
Lemma returned_table_is_stack_witness :
  exists files tables,
    chosen_files Example.world (PyPath Example.profiles) PyNone = Returned files
    /\ files <> []
    /\ reads (trace (extend Example.world
                       [EvGlob Example.profiles "*.parquet";
                        EvRead Example.p1; EvRead Example.p2]))
       = reads (trace Example.world) ++ files
    /\ Forall2 (fun f t =>
                  loaded_table Example.polars Example.is_metadata_column Example.world
                    (Some ["Feature_1"]) f = Returned t) files tables
    /\ height Example.combined = list_sum (map height tables)
    /\ forall c,
         column_values c Example.combined = flat_map (column_values c) tables.
Proof.
  apply (returned_table_is_stack Example.polars Example.is_metadata_column Example.world
           (PyPath Example.profiles) (Some ["Feature_1"]) PyNone).
  reflexivity.
Defined.

(** P1 listed twice: its rows are stacked twice. *)
Lemma same_schema_tables_stack_witness :
  exists out w',
    load_and_concat_profiles Example.polars Example.is_metadata_column (PyStr "x") None
      (PyList [PyPath Example.p1; PyPath Example.p2; PyPath Example.p1])
      Example.world = (w', Returned out)
    /\ schema out = schema Example.P1
    /\ height out = list_sum (map height [Example.P1; Example.P2; Example.P1])
    /\ reads (trace w')
       = reads (trace Example.world) ++ [Example.p1; Example.p2; Example.p1].
Proof.
  apply (same_schema_tables_stack Example.polars Example.is_metadata_column Example.world
           (PyStr "x") None
           (PyList [PyPath Example.p1; PyPath Example.p2; PyPath Example.p1])
           [Example.p1; Example.p2; Example.p1]
           [Example.P1; Example.P2; Example.P1] (schema Example.P1)).
  - reflexivity.
  - discriminate.
  - repeat constructor.
  - repeat constructor.
Defined.

(** P1 and P2 with the shared features [Feature_2], [Feature_1], in that
    order. *)
Lemma shared_feature_load_succeeds_witness :
  exists out w',
    load_and_concat_profiles Example.polars Example.is_metadata_column (PyStr "x")
      (Some (map fst Example.feature_schema))
      (PyList [PyPath Example.p1; PyPath Example.p2]) Example.world
    = (w', Returned out)
    /\ schema out = Example.meta_schema ++ Example.feature_schema
    /\ (forall c,
          In c (map fst (Example.meta_schema ++ Example.feature_schema)) ->
          column_values c out
          = flat_map (column_values c) [Example.P1; Example.P2])
    /\ reads (trace w') = reads (trace Example.world) ++ [Example.p1; Example.p2].
Proof.
  apply (shared_feature_load_succeeds Example.polars Example.is_metadata_column Example.world
           (PyStr "x") (PyList [PyPath Example.p1; PyPath Example.p2])
           [Example.p1; Example.p2] [Example.P1; Example.P2]
           Example.meta_schema Example.feature_schema).
  - reflexivity.
  - discriminate.
  - repeat constructor.
  - repeat (apply Forall_cons;
            [split; [distinct_names
                    | split; [reflexivity
                             | repeat (apply Forall_cons; [simpl; auto 10|]);
                               apply Forall_nil]]|]).
    apply Forall_nil.
  - repeat constructor.
  - distinct_names.
  - repeat constructor.
  - repeat constructor.
Defined.

Lemma shared_features_needed_in_every_file_witness :
  NoDup ["Feature_1"]
  /\ exists files,
       chosen_files Example.world (PyPath Example.profiles) PyNone
       = Returned files
       /\ Forall (fun f =>
                    exists df,
                      parquet_at Example.world f = Returned df
                      /\ Forall (fun c =>
                                   In c (columns df)
                                   /\ Example.is_metadata_column c = false)
                           ["Feature_1"]) files.
Proof.
  apply (shared_features_needed_in_every_file Example.polars Example.is_metadata_column
           Example.world (PyPath Example.profiles) ["Feature_1"] PyNone
           (extend Example.world
              [EvGlob Example.profiles "*.parquet";
               EvRead Example.p1; EvRead Example.p2])
           Example.combined).
  - repeat constructor.
  - reflexivity.
Defined.

(** P1 projected onto [Feature_2]. *)
Lemma load_profile_keeps_selected_cells_witness :
  exists t,
    load_profile Example.polars Example.is_metadata_column (Some ["Feature_2"]) Example.p1
      Example.world
    = (extend Example.world [EvRead Example.p1], Returned t)
    /\ columns t
       = fst (split_meta_and_features Example.is_metadata_column Example.P1)
           ++ ["Feature_2"]
    /\ (forall c, In c (columns t) ->
                  column_values c t = column_values c Example.P1)
    /\ (forall c, ~ In c (columns t) -> column_values c t = []).
Proof.
  apply (load_profile_keeps_selected_cells Example.polars Example.is_metadata_column
           Example.world Example.p1 Example.P1 ["Feature_2"]).
  - reflexivity.
  - distinct_names.
  - distinct_names.
  - repeat (apply Forall_cons; [split; [simpl; auto 10 | reflexivity]|]).
    apply Forall_nil.
  - repeat constructor.
  - repeat constructor.
Defined.

Lemma single_file_returned_as_stored_witness :
  load_and_concat_profiles Example.polars Example.is_metadata_column (PyStr "anywhere") None
    (PyList [PyPath Example.tagged_file]) Example.world
  = (extend Example.world
       [EvExists Example.tagged_file; EvRead Example.tagged_file],
     Returned Example.tagged).
Proof.
  apply (single_file_returned_as_stored Example.polars Example.is_metadata_column Example.world
           (PyStr "anywhere") (Pathlib.of_str "anywhere"));
    reflexivity.
Defined.

(** [notes.txt] between P1 and P2: P1 is read, P2 is not. *)
Lemma first_failing_file_aborts_witness :
  exists w',
    load_and_concat_profiles Example.polars Example.is_metadata_column (PyStr "x") None
      (PyList [PyPath Example.p1; PyPath Example.notes; PyPath Example.p2])
      Example.world
    = (w', Raised Example.not_parquet)
    /\ reads (trace w')
       = reads (trace Example.world) ++ [Example.p1] ++ [Example.notes]
    /\ root w' = root Example.world.
Proof.
  apply (first_failing_file_aborts Example.polars Example.is_metadata_column Example.world
           (PyStr "x") None
           (PyList [PyPath Example.p1; PyPath Example.notes; PyPath Example.p2])
           [Example.p1] Example.notes [Example.p2] [Example.P1]).
  - reflexivity.
  - repeat constructor.
  - reflexivity.
Defined.

(** A string among the listed plates, next to a path that does not exist:
    the type is reported, the missing file is not looked for. *)
Lemma wrong_argument_types_raise_first_witness :
  load_and_concat_profiles Example.polars Example.is_metadata_column (PyStr "profiles") None
    (PyList [PyPath Example.p3; PyStr "profiles/P1.parquet"]) Example.world
  = (Example.world,
     Raised (mkExc TypeError
               "All elements in specific_plates must be pathlib.Path objects"))
  /\ exc_type (mkExc TypeError
                 "All elements in specific_plates must be pathlib.Path objects")
     = TypeError.
Proof.
  apply wrong_argument_types_raise_first.
  right. split; reflexivity.
Defined.

(** P1 alone is listed; the two disks agree on it and differ elsewhere. *)
Lemma explicit_list_outcome_depends_on_listed_files_only_witness :
  snd (load_and_concat_profiles Example.polars Example.is_metadata_column (PyStr "profiles")
         (Some ["Feature_1"]) (PyList (map PyPath [Example.p1])) Example.world)
  = snd (load_and_concat_profiles Example.polars Example.is_metadata_column
           (PyPath (Pathlib.of_str "/nowhere"))
           (Some ["Feature_1"]) (PyList (map PyPath [Example.p1]))
           Example.lone_world).
Proof.
  apply explicit_list_outcome_depends_on_listed_files_only.
  - reflexivity.
  - reflexivity.
  - intros p [<-|[]]. reflexivity.
Defined.
